(** * MyShell: the command dispatcher and its built-ins

    A shallow embedding of [myshell.c].  The C program is a read-loop that
    parses one line with [sscanf]/[strncmp] and calls one of the built-ins
    [do_cat], [do_cd], [do_ls], [do_mkdir], [do_pwd], [do_rm], [do_rmdir],
    [do_stat], [do_q].  The built-ins talk to the operating system; here
    they are written in a small state monad over a [world] that holds the
    process-side state ([errno], the global [filename] buffer, the tables
    of open descriptors, the buffers of stdio, what the program has put
    out and what has arrived at descriptors 1 and 2) next to an abstract
    kernel, given by the interface [Posix]. *)

From Stdlib Require Import ZArith String Ascii List Lia Bool DecimalString.
From stdpp Require Import base option list gmap strings.
Import ListNotations.
Open Scope string_scope.
Open Scope Z_scope.

(* stdpp keeps [simpl] from unfolding the append of strings; the proofs
   below compute on texts that start with a known verb. *)
#[local] Arguments String.append !s1 s2 : simpl nomatch.

(** * The program *)

(** ** C strings *)

Module CString.

Definition BUFFER_SIZE : nat := 256.
Definition MAX_PATH_LENGTH : nat := 256.
Definition MAX_FILENAME_LENGTH : nat := 256.

(** [isspace] in the C locale: space, and the controls 9..13. *)
Definition isspace (c : ascii) : bool :=
  let n := nat_of_ascii c in
  Nat.eqb n 32 || (Nat.leb 9 n && Nat.leb n 13).

Definition NUL : ascii := Ascii.zero.
Definition newline : string := String (ascii_of_nat 10) "".

(** [strnlen(s, n)] *)
Definition strnlen (s : string) (n : nat) : nat :=
  Nat.min (String.length s) n.

(** [strncmp(s1, s2, n)]: only the sign of the result is specified by C,
    and only the sign is returned here. *)
Fixpoint strncmp (s1 s2 : string) (n : nat) : Z :=
  match n with
  | O => 0
  | S n' =>
      match s1, s2 with
      | EmptyString, EmptyString => 0
      | EmptyString, String _ _ => -1
      | String _ _, EmptyString => 1
      | String c1 r1, String c2 r2 =>
          if Ascii.eqb c1 c2 then strncmp r1 r2 n'
          else if Nat.ltb (nat_of_ascii c1) (nat_of_ascii c2) then -1 else 1
      end
  end.

(** The first [n] characters of a text, and what follows them. *)
Fixpoint first_bytes (n : nat) (s : string) : string :=
  match n, s with
  | S n', String c r => String c (first_bytes n' r)
  | _, _ => EmptyString
  end.

Fixpoint rest_bytes (n : nat) (s : string) : string :=
  match n, s with
  | S n', String _ r => rest_bytes n' r
  | _, _ => s
  end.

(** *** [sscanf(input, "<verb> %s", dst)]

    Every format string of the program is a literal verb, one blank and
    [%s].  The literal must be met character by character; the blank of
    the format eats any run of white space of the input, the empty run
    included; [%s] then takes the longest run of characters that are not
    white space, and fails when the input has ended. *)

Inductive literal_result :=
| LitRest (rest : string)   (* the literal was met; [rest] follows it *)
| LitMismatch               (* an input character differs *)
| LitEnd.                   (* the input ended inside the literal *)

Fixpoint match_literal (lit input : string) : literal_result :=
  match lit with
  | EmptyString => LitRest input
  | String c lit' =>
      match input with
      | EmptyString => LitEnd
      | String d input' =>
          if Ascii.eqb c d then match_literal lit' input' else LitMismatch
      end
  end.

Fixpoint skip_spaces (s : string) : string :=
  match s with
  | EmptyString => EmptyString
  | String c r => if isspace c then skip_spaces r else s
  end.

Fixpoint scan_word (s : string) : string :=
  match s with
  | EmptyString => EmptyString
  | String c r => if isspace c then EmptyString else String c (scan_word r)
  end.

Inductive scan_result :=
| ScanStored (word : string)  (* one conversion done, [word] stored *)
| ScanMismatch                (* matching failure: returns 0 *)
| ScanEOF.                    (* input failure before a conversion: EOF *)

Definition scan (verb input : string) : scan_result :=
  match match_literal verb input with
  | LitEnd => ScanEOF
  | LitMismatch => ScanMismatch
  | LitRest rest =>
      match scan_word (skip_spaces rest) with
      | EmptyString => ScanEOF
      | word => ScanStored word
      end
  end.

Definition EOF : Z := -1.

Definition scan_return (r : scan_result) : Z :=
  match r with
  | ScanStored _ => 1
  | ScanMismatch => 0
  | ScanEOF => EOF
  end.

(** *** The line buffer in memory

    [strip_trailing_whitespace] walks an index down from the last
    character of the line and does not stop at index 0, so the cells
    under the buffer are part of the model: [under] lists the bytes at
    [string[-1]], [string[-2]], ... down to the start of the mapped
    segment.  [cells] are the bytes of the buffer from index 0. *)

Record linebuf := LineBuf { cells : list ascii; under : list ascii }.

Definition peek (m : linebuf) (i : Z) : option ascii :=
  if 0 <=? i then cells m !! Z.to_nat i
  else under m !! Z.to_nat (- i - 1).

Definition poke (m : linebuf) (i : Z) (c : ascii) : linebuf :=
  if 0 <=? i then LineBuf (<[Z.to_nat i := c]> (cells m)) (under m)
  else LineBuf (cells m) (<[Z.to_nat (- i - 1) := c]> (under m)).

(** The C string that starts at a list of cells. *)
Fixpoint cstring (l : list ascii) : string :=
  match l with
  | [] => EmptyString
  | c :: r => if Ascii.eqb c NUL then EmptyString else String c (cstring r)
  end.

(** [while (isspace(string[i])) string[i--] = 0;]  A read outside the
    mapped cells ends the process; [None] stands for that. *)
Fixpoint strip_loop (fuel : nat) (m : linebuf) (i : Z) : option linebuf :=
  match fuel with
  | O => None
  | S fuel' =>
      match peek m i with
      | None => None
      | Some c =>
          if isspace c then strip_loop fuel' (poke m i NUL) (i - 1)
          else Some m
      end
  end.

(** [strip_trailing_whitespace(string)].  The index only decreases and a
    read under the lowest cell stops the walk, so a budget of one step
    per cell, plus one, is never used up. *)
Definition strip_trailing_whitespace (m : linebuf) : option linebuf :=
  let i := Z.of_nat (strnlen (cstring (cells m)) BUFFER_SIZE) - 1 in
  strip_loop (S (length (cells m) + length (under m))) m i.

(** The buffer as [fgets] leaves it: the line and its terminator. *)
Definition load (line : string) (below : list ascii) : linebuf :=
  LineBuf (list_ascii_of_string line ++ [NUL]) below.

End CString.
Import CString.

(** ** The operating system, as the program sees it *)

(** The error numbers the calls of the program can leave in [errno]. *)
Inductive errcode :=
| ENOENT | EIO | EBADF | EACCES | EEXIST | ENOTDIR | EISDIR
| EMFILE | ENOSPC | EPIPE | ERANGE | ENOTEMPTY.

(** [errno] is [None] when it holds 0. *)
Definition strerror (e : option errcode) : string :=
  match e with
  | None => "Success"
  | Some ENOENT => "No such file or directory"
  | Some EIO => "Input/output error"
  | Some EBADF => "Bad file descriptor"
  | Some EACCES => "Permission denied"
  | Some EEXIST => "File exists"
  | Some ENOTDIR => "Not a directory"
  | Some EISDIR => "Is a directory"
  | Some EMFILE => "Too many open files"
  | Some ENOSPC => "No space left on device"
  | Some EPIPE => "Broken pipe"
  | Some ERANGE => "Numerical result out of range"
  | Some ENOTEMPTY => "Directory not empty"
  end.

Inductive sysret (A : Type) :=
| Ok (a : A)
| Fail (e : errcode).
Arguments Ok {A} a.
Arguments Fail {A} e.

(** [struct stat], the fields that [do_stat] prints. *)
Record stat_t := MkStat {
  st_atime : Z; st_mtime : Z; st_ctime : Z;
  st_uid : Z; st_gid : Z; st_ino : Z; st_mode : Z; st_nlink : Z;
  st_size : Z; st_blksize : Z; st_blocks : Z }.

(** [struct passwd], the fields the program could look at. *)
Record passwd := Passwd { pw_name : string; pw_uid : Z; pw_dir : string }.

(** What the coming [read]s of an open file will deliver, in order: data
    (an empty piece is a zero-length read) or a failure.  When the list is
    used up the file is at its end.  A regular file of content [c] is
    [[RData c]].  The list is finite: the files of this model come to
    their end, to a zero-length read or to a failure.  A source that
    delivers data for ever (/dev/zero, a FIFO whose writer stays) has no
    such list; on it the loop of [do_cat] does not end, and what is proved
    below on [do_cat] returning is proved for the files that end. *)
Inductive read_result :=
| RData (bytes : string)
| RFail (e : errcode).

(** What the coming [readdir]s of an open directory will deliver. *)
Inductive dirent_result :=
| DEntry (d_name : string)
| DFail (e : errcode).

(** The calls that go through path names are left to an abstract kernel
    with state [K]: the program passes its argument on verbatim and only
    looks at success or failure.  A failed call returns no new state: it
    changes nothing. *)
Class Posix (K : Type) := {
  sys_chdir : string -> K -> sysret K;
  sys_getcwd : nat -> K -> sysret string;
  (** The record of [getpwuid(getuid())]; [None] when there is none. *)
  sys_getpwuid : K -> option passwd;
  sys_mkdir : string -> Z -> K -> sysret K;
  sys_rmdir : string -> K -> sysret K;
  sys_unlink : string -> K -> sysret K;
  sys_stat : string -> K -> sysret stat_t;
  sys_open : string -> K -> sysret (list read_result);
  sys_opendir : string -> K -> sysret (list dirent_result)
}.

(** The outcome of one transfer to descriptor 1: all of it is taken, only
    the first [n] bytes are, or the transfer fails. *)
Inductive write_result :=
| WAll
| WPart (n : nat)
| WFail (e : errcode).

Inductive stream := Stdout | Stderr.

(** Ghost record of the built-ins entered, to tell what a line was
    dispatched to. *)
Inductive call :=
| CallCat (arg : string)
| CallCd (arg : string)
| CallLs (arg : string)
| CallMkdir (arg : string)
| CallPwd
| CallRm (arg : string)
| CallRmdir (arg : string)
| CallStat (arg : string)
| CallQ.

(** ** Words of the command line *)

(** Blank texts and words. *)
Fixpoint all_space (s : string) : bool :=
  match s with
  | EmptyString => true
  | String c r => isspace c && all_space r
  end.

Fixpoint no_space (s : string) : bool :=
  match s with
  | EmptyString => true
  | String c r => negb (isspace c) && no_space r
  end.

Definition is_word (s : string) : bool :=
  negb (String.eqb s "") && no_space s.

(** Nothing, or a text that starts with white space. *)
Definition is_tail (s : string) : bool :=
  match s with
  | EmptyString => true
  | String c _ => isspace c
  end.

Fixpoint no_nul (s : string) : bool :=
  match s with
  | EmptyString => true
  | String c r => negb (Ascii.eqb c NUL) && no_nul r
  end.

Fixpoint count_newlines (s : string) : nat :=
  match s with
  | EmptyString => O
  | String c r =>
      ((if Ascii.eqb c (ascii_of_nat 10) then 1 else 0) + count_newlines r)%nat
  end.

(** Does the text start with one of the names? *)
Definition starts_with_any (names : list string) (s : string) : bool :=
  existsb (fun v => String.prefix v s) names.

(** The whitespace-delimited tokens of a line. *)
Fixpoint tokens_from (cur s : string) : list string :=
  match s with
  | EmptyString => if String.eqb cur "" then [] else [cur]
  | String c r =>
      if isspace c then
        if String.eqb cur "" then tokens_from "" r
        else cur :: tokens_from "" r
      else tokens_from (cur +:+ String c "") r
  end.

Definition tokens (line : string) : list string := tokens_from "" line.

Definition leading_token (line : string) : string :=
  match tokens line with
  | [] => ""
  | t :: _ => t
  end.

(** ** The verbs *)

Inductive verb := Cat | Cd | Stat | Mkdir | Rmdir | Rm | Ls | Pwd | Exit | Q.

Definition name (v : verb) : string :=
  match v with
  | Cat => "cat" | Cd => "cd" | Stat => "stat" | Mkdir => "mkdir"
  | Rmdir => "rmdir" | Rm => "rm" | Ls => "ls" | Pwd => "pwd"
  | Exit => "exit" | Q => "q"
  end.

Definition verbs : list verb :=
  [Cat; Cd; Stat; Mkdir; Rmdir; Rm; Ls; Pwd; Exit; Q].

(** The verb whose built-in a recorded call belongs to. *)
Definition verb_of (c : call) : verb :=
  match c with
  | CallCat _ => Cat | CallCd _ => Cd | CallLs _ => Ls | CallMkdir _ => Mkdir
  | CallPwd => Pwd | CallRm _ => Rm | CallRmdir _ => Rmdir
  | CallStat _ => Stat | CallQ => Q
  end.

(** The message for a line that is not a command. *)
Definition unknown_command (buffer : string) : stream * string :=
  (Stderr, "myshell: " +:+ buffer +:+ ": No such file or directory" +:+ newline).

(** Does the verb take the word that follows it? *)
Definition takes_word (v : verb) : bool :=
  match v with
  | Pwd | Exit => false
  | _ => true
  end.

(** Is the verb alone a command, and on which argument? *)
Definition runs_alone (v : verb) : bool :=
  match v with
  | Cd | Ls | Pwd | Exit | Q => true
  | _ => false
  end.

Definition default_arg (v : verb) : string :=
  match v with
  | Ls => "."
  | _ => ""
  end.

(** Verbs that are no command when nothing follows them.  ([rmdir] is
    left aside: see [rmdir_alone_runs_rm].) *)
Definition rejected_alone (v : verb) : bool :=
  match v with
  | Cat | Stat | Mkdir | Rm => true
  | _ => false
  end.

(** ** Chunks of a file *)

(** A text cut into consecutive pieces of [n] characters, the last one
    possibly shorter: what successive reads of [n] bytes see of it. *)
Fixpoint chunks_upto (fuel n : nat) (s : string) : list string :=
  match fuel with
  | O => []
  | S fuel' =>
      if String.eqb s "" then []
      else if Nat.leb (String.length s) n then [s]
      else first_bytes n s :: chunks_upto fuel' n (rest_bytes n s)
  end.

Definition chunks (n : nat) (s : string) : list string :=
  chunks_upto (String.length s) n s.

Definition join (cs : list string) : string :=
  fold_right String.append "" cs.

(** What [do_cat] sends to standard output for the chunks it has read. *)
Definition cat_output (cs : list string) : list (stream * string) :=
  flat_map (fun c => [(Stdout, c); (Stdout, newline)]) cs.

(** What [do_cat] reports after a failed [read]. *)
Definition read_report (tail : list read_result) : list (stream * string) :=
  match tail with
  | RFail e :: _ =>
      [(Stderr, "cat: cannot read file. " +:+ strerror (Some e) +:+ newline)]
  | _ => []
  end.

(** The newlines that follow that many chunks. *)
Definition newlines (n : nat) : string := join (replicate n newline).

(** ** The buffers of stdio *)

(** The program never sets the buffering of its streams, so stdio picks
    it: standard error is not buffered; standard output is line buffered
    when descriptor 1 is a terminal and fully buffered otherwise.
    [write(1, ...)] in [do_cat] goes past the buffer. *)
Record stdio := Stdio {
  out_tty : bool;       (* descriptor 1 is a terminal *)
  out_room : nat;       (* the size of the buffer of stdout *)
  out_held : string;    (* the bytes the buffer of stdout holds *)
  in_tty : bool;        (* descriptor 0 is a terminal *)
  in_ahead : nat;       (* of the line the terminal delivered last, the
                           bytes [fgets] has not taken yet *)
  in_eof : bool         (* stdin has met the end of the input *)
}.

Definition hold (text : string) (io : stdio) : stdio :=
  Stdio (out_tty io) (out_room io) text (in_tty io) (in_ahead io) (in_eof io).

Definition taken (ahead : nat) (eof : bool) (io : stdio) : stdio :=
  Stdio (out_tty io) (out_room io) (out_held io) (in_tty io) ahead eof.

(** The length of a text through its last newline; 0 without one. *)
Fixpoint line_end (s : string) : nat :=
  match s with
  | EmptyString => O
  | String c r =>
      match line_end r with
      | O => if Ascii.eqb c (ascii_of_nat 10) then 1%nat else O
      | S k => S (S k)
      end
  end.

(** How many of the bytes in the buffer are due for descriptor 1 once a
    text has been put: a line buffered stream sends what it holds through
    the last newline; what is left is sent in whole buffers when it does
    not fit. *)
Definition due (tty : bool) (room : nat) (all : string) : nat :=
  let lines := if tty then line_end all else O in
  let left := (String.length all - lines)%nat in
  (lines + (if Nat.leb left room then O
            else match room with
                 | O => left
                 | _ => left - Nat.modulo left room
                 end))%nat.

(** stdio sends [data] to descriptor 1 and goes on after a partial
    transfer until all is sent or a [write] fails: the pieces the
    descriptor took, the error that ended it, the outcomes left. *)
Fixpoint drain (sink : list write_result) (data : string)
  : list string * option errcode * list write_result :=
  match sink with
  | [] => ([data], None, [])
  | WAll :: s => ([data], None, s)
  | WPart n :: s =>
      if Nat.leb (String.length data) n then ([data], None, s)
      else
        let '(pieces, e, s') := drain s (rest_bytes n data) in
        (first_bytes n data :: pieces, e, s')
  | WFail e :: s => ([], Some e, s)
  end.

(** The bytes of one stream in a record of transfers. *)
Definition same_stream (a b : stream) : bool :=
  match a, b with
  | Stdout, Stdout | Stderr, Stderr => true
  | _, _ => false
  end.

Definition bytes_of (to : stream) (l : list (stream * string)) : string :=
  join (flat_map (fun o => if same_stream (fst o) to then [snd o] else []) l).

Section Shell.

Context {K : Type} `{Posix K}.

Record world := World {
  w_kern : K;                               (* the kernel's state *)
  w_errno : option errcode;                 (* errno *)
  w_filename : string;                      (* the global filename[] *)
  w_under : list ascii;                     (* memory under buffer[] *)
  w_beyond : string;                        (* the string after filename[] *)
  w_fds : gmap Z (list read_result);        (* open file descriptors *)
  w_dirs : gmap Z (list dirent_result);     (* open directory streams *)
  w_sink : list write_result;               (* coming outcomes on fd 1 *)
  w_junk : string;                          (* an uninitialised stack buffer *)
  w_out : list (stream * string);           (* put out so far, call by call:
                                               the bytes descriptor 1 took
                                               from a [write], the texts
                                               given to [printf], [fprintf] *)
  w_calls : list call;                      (* ghost: built-ins entered *)
  w_stdio : stdio;                          (* the buffers of stdio *)
  w_wire : list (stream * string)           (* arrived at descriptors 1 and
                                               2 so far, in that order *)
}.

Definition set_kern (k : K) (w : world) : world :=
  World k (w_errno w) (w_filename w) (w_under w)
        (w_beyond w) (w_fds w) (w_dirs w) (w_sink w)
        (w_junk w) (w_out w) (w_calls w)
        (w_stdio w) (w_wire w).
Definition set_errno (e : option errcode) (w : world) : world :=
  World (w_kern w) e (w_filename w) (w_under w)
        (w_beyond w) (w_fds w) (w_dirs w) (w_sink w)
        (w_junk w) (w_out w) (w_calls w)
        (w_stdio w) (w_wire w).
Definition set_filename (s : string) (w : world) : world :=
  World (w_kern w) (w_errno w) s (w_under w)
        (w_beyond w) (w_fds w) (w_dirs w) (w_sink w)
        (w_junk w) (w_out w) (w_calls w)
        (w_stdio w) (w_wire w).
Definition set_under (u : list ascii) (w : world) : world :=
  World (w_kern w) (w_errno w) (w_filename w) u
        (w_beyond w) (w_fds w) (w_dirs w) (w_sink w)
        (w_junk w) (w_out w) (w_calls w)
        (w_stdio w) (w_wire w).
Definition set_fds (t : gmap Z (list read_result)) (w : world) : world :=
  World (w_kern w) (w_errno w) (w_filename w) (w_under w)
        (w_beyond w) t (w_dirs w) (w_sink w)
        (w_junk w) (w_out w) (w_calls w)
        (w_stdio w) (w_wire w).
Definition set_dirs (t : gmap Z (list dirent_result)) (w : world) : world :=
  World (w_kern w) (w_errno w) (w_filename w) (w_under w)
        (w_beyond w) (w_fds w) t (w_sink w)
        (w_junk w) (w_out w) (w_calls w)
        (w_stdio w) (w_wire w).
Definition set_sink (s : list write_result) (w : world) : world :=
  World (w_kern w) (w_errno w) (w_filename w) (w_under w)
        (w_beyond w) (w_fds w) (w_dirs w) s
        (w_junk w) (w_out w) (w_calls w)
        (w_stdio w) (w_wire w).
Definition set_stdio (io : stdio) (w : world) : world :=
  World (w_kern w) (w_errno w) (w_filename w) (w_under w)
        (w_beyond w) (w_fds w) (w_dirs w) (w_sink w)
        (w_junk w) (w_out w) (w_calls w)
        io (w_wire w).
(** An output that is not buffered: put out and arrived at once. *)
Definition add_out (o : stream * string) (w : world) : world :=
  World (w_kern w) (w_errno w) (w_filename w) (w_under w)
        (w_beyond w) (w_fds w) (w_dirs w) (w_sink w)
        (w_junk w) (w_out w ++ [o]) (w_calls w)
        (w_stdio w) (w_wire w ++ [o]).
(** A text given to a buffered stream. *)
Definition log_out (o : stream * string) (w : world) : world :=
  World (w_kern w) (w_errno w) (w_filename w) (w_under w)
        (w_beyond w) (w_fds w) (w_dirs w) (w_sink w)
        (w_junk w) (w_out w ++ [o]) (w_calls w)
        (w_stdio w) (w_wire w).
(** Transfers made by stdio. *)
Definition add_wire (l : list (stream * string)) (w : world) : world :=
  World (w_kern w) (w_errno w) (w_filename w) (w_under w)
        (w_beyond w) (w_fds w) (w_dirs w) (w_sink w)
        (w_junk w) (w_out w) (w_calls w)
        (w_stdio w) (w_wire w ++ l).
Definition add_call (c : call) (w : world) : world :=
  World (w_kern w) (w_errno w) (w_filename w) (w_under w)
        (w_beyond w) (w_fds w) (w_dirs w) (w_sink w)
        (w_junk w) (w_out w) (w_calls w ++ [c])
        (w_stdio w) (w_wire w).
Definition set_held (text : string) (w : world) : world :=
  set_stdio (hold text (w_stdio w)) w.

(** *** The monad of the program *)

Inductive result (A : Type) :=
| Done (a : A) (w : world)        (* the function returned [a] *)
| Exited (status : Z) (w : world) (* [exit(status)] was called *)
| Crashed (w : world)             (* an access to unmapped memory *)
| Timeout.                        (* a loop of the model used up its budget *)
Arguments Done {A} a w.
Arguments Exited {A} status w.
Arguments Crashed {A} w.
Arguments Timeout {A}.

Definition M (A : Type) : Type := world -> result A.

Definition ret {A} (a : A) : M A := fun w => Done a w.

Definition bind {A B} (c : M A) (k : A -> M B) : M B := fun w =>
  match c w with
  | Done a w' => k a w'
  | Exited s w' => Exited s w'
  | Crashed w' => Crashed w'
  | Timeout => Timeout
  end.

Declare Scope shell_scope.
Delimit Scope shell_scope with sh.
Notation "x <- c ;; k" := (bind c (fun x => k))
  (at level 100, c at next level, k at level 200, right associativity)
  : shell_scope.
Notation "c ;; k" := (bind c (fun _ => k))
  (at level 100, k at level 200, right associativity) : shell_scope.
Local Open Scope shell_scope.

Definition gets {A} (f : world -> A) : M A := fun w => Done (f w) w.
Definition modify (f : world -> world) : M unit := fun w => Done tt (f w).
Definition crash {A} : M A := fun w => Crashed w.
Definition timeout {A} : M A := fun _ => Timeout.
Definition enter (c : call) : M unit := modify (add_call c).

Definition EXIT_SUCCESS : Z := 0.

(** *** The library calls *)

(** A path call that changes the kernel: 0, or -1 with [errno] set. *)
Definition path_call (f : K -> sysret K) : M Z := fun w =>
  match f (w_kern w) with
  | Ok k' => Done 0 (set_kern k' w)
  | Fail e => Done (-1) (set_errno (Some e) w)
  end.

Definition chdir (path : string) : M Z := path_call (sys_chdir path).
Definition mkdir (path : string) (mode : Z) : M Z :=
  path_call (sys_mkdir path mode).
Definition rmdir (path : string) : M Z := path_call (sys_rmdir path).
Definition unlink (path : string) : M Z := path_call (sys_unlink path).

(** [getcwd(buf, size)]: the path stored in [buf], or [None] for NULL. *)
Definition getcwd (size : nat) : M (option string) := fun w =>
  match sys_getcwd size (w_kern w) with
  | Ok d => Done (Some d) w
  | Fail e => Done None (set_errno (Some e) w)
  end.

(** [stat(path, &stats)] *)
Definition stat (path : string) : M (Z * option stat_t) := fun w =>
  match sys_stat path (w_kern w) with
  | Ok s => Done (0, Some s) w
  | Fail e => Done (-1, None) (set_errno (Some e) w)
  end.

(** A descriptor that is not open: the one after the highest in use;
    0, 1 and 2 are the standard streams. *)
Definition fresh_key {V} (t : gmap Z V) : Z :=
  Z.succ (map_fold (fun k _ acc => Z.max k acc) 2 t).

(** [open(path, O_RDONLY)] *)
Definition open (path : string) : M Z := fun w =>
  match sys_open path (w_kern w) with
  | Ok script =>
      let fd := fresh_key (w_fds w) in
      Done fd (set_fds (<[fd := script]> (w_fds w)) w)
  | Fail e => Done (-1) (set_errno (Some e) w)
  end.

(** The open file behind a descriptor; a negative number is none. *)
Definition open_file (fd : Z) (w : world) : option (list read_result) :=
  if fd <? 0 then None else w_fds w !! fd.

(** [close(fd)] *)
Definition close (fd : Z) : M Z := fun w =>
  match open_file fd w with
  | Some _ => Done 0 (set_fds (delete fd (w_fds w)) w)
  | None => Done (-1) (set_errno (Some EBADF) w)
  end.

(** One [read] of at most [count] bytes against what the file delivers:
    the return value, the bytes stored, what the file delivers next. *)
Definition read_step (count : nat) (script : list read_result)
  : (Z * string + errcode) * list read_result :=
  match script with
  | [] => (inl (0, ""), [])
  | RFail e :: rest => (inr e, rest)
  | RData bytes :: rest =>
      if Nat.leb (String.length bytes) count
      then (inl (Z.of_nat (String.length bytes), bytes), rest)
      else (inl (Z.of_nat count, first_bytes count bytes),
            RData (rest_bytes count bytes) :: rest)
  end.

(** [read(fd, buf, count)]: the return value and the bytes stored. *)
Definition read (fd : Z) (count : nat) : M (Z * string) := fun w =>
  match open_file fd w with
  | None => Done (-1, "") (set_errno (Some EBADF) w)
  | Some script =>
      match read_step count script with
      | (inl r, rest) => Done r (set_fds (<[fd := rest]> (w_fds w)) w)
      | (inr e, rest) =>
          Done (-1, "")
               (set_errno (Some e) (set_fds (<[fd := rest]> (w_fds w)) w))
      end
  end.

(** [write(1, buf, n)] with [data] the [n] bytes of [buf]. *)
Definition write1 (data : string) : M Z := fun w =>
  match w_sink w with
  | [] => Done (Z.of_nat (String.length data)) (add_out (Stdout, data) w)
  | WAll :: s =>
      Done (Z.of_nat (String.length data))
           (add_out (Stdout, data) (set_sink s w))
  | WPart n :: s =>
      let m := Nat.min n (String.length data) in
      Done (Z.of_nat m) (add_out (Stdout, first_bytes m data) (set_sink s w))
  | WFail e :: s => Done (-1) (set_errno (Some e) (set_sink s w))
  end.

(** stdio sends [data] from the buffer of stdout to descriptor 1; was
    all of it taken? *)
Definition transmit (data : string) (w : world) : world * bool :=
  match drain (w_sink w) data with
  | (pieces, None, s) =>
      (set_sink s (add_wire (map (pair Stdout) pieces) w), true)
  | (pieces, Some e, s) =>
      (set_errno (Some e)
         (set_sink s (add_wire (map (pair Stdout) pieces) w)), false)
  end.

(** The buffer of stdout is sent and emptied; after a failed [write]
    what it held is dropped. *)
Definition flush_stdout (w : world) : world :=
  if String.eqb (out_held (w_stdio w)) "" then w
  else set_held "" (fst (transmit (out_held (w_stdio w)) w)).

(** [printf]: the text goes into the buffer of stdout, and the part of
    the buffer that is [due] goes on to descriptor 1.  The value returned
    is negative when a [write] fails. *)
Definition printf (text : string) : M Z := fun w =>
  let all := out_held (w_stdio w) +:+ text in
  let n := due (out_tty (w_stdio w)) (out_room (w_stdio w)) all in
  let w1 := log_out (Stdout, text) w in
  if Nat.eqb n 0 then Done (Z.of_nat (String.length text)) (set_held all w1)
  else
    match transmit (first_bytes n all) w1 with
    | (w2, true) =>
        Done (Z.of_nat (String.length text)) (set_held (rest_bytes n all) w2)
    | (w2, false) => Done (-1) (set_held "" w2)
    end.

(** [exit(status)]: the buffer of stdout is flushed, the process ends. *)
Definition exit {A} (status : Z) : M A := fun w =>
  Exited status (flush_stdout w).

(** [fprintf(stderr, ...)]: standard error is not buffered. *)
Definition fprintf_stderr (text : string) : M Z := fun w =>
  Done (Z.of_nat (String.length text)) (add_out (Stderr, text) w).

(** [opendir(path)]: the stream, or [None] for NULL. *)
Definition opendir (path : string) : M (option Z) := fun w =>
  match sys_opendir path (w_kern w) with
  | Ok script =>
      let d := fresh_key (w_dirs w) in
      Done (Some d) (set_dirs (<[d := script]> (w_dirs w)) w)
  | Fail e => Done None (set_errno (Some e) w)
  end.

(** [readdir(dir)]: the name of the next entry, or [None] for NULL; at
    the end of the directory [errno] is left as it is. *)
Definition readdir (dir : Z) : M (option string) := fun w =>
  match w_dirs w !! dir with
  | None => Done None (set_errno (Some EBADF) w)
  | Some [] => Done None w
  | Some (DEntry name :: rest) =>
      Done (Some name) (set_dirs (<[dir := rest]> (w_dirs w)) w)
  | Some (DFail e :: rest) =>
      Done None (set_errno (Some e) (set_dirs (<[dir := rest]> (w_dirs w)) w))
  end.

(** [closedir(dir)] *)
Definition closedir (dir : Z) : M Z := fun w =>
  match w_dirs w !! dir with
  | Some _ => Done 0 (set_dirs (delete dir (w_dirs w)) w)
  | None => Done (-1) (set_errno (Some EBADF) w)
  end.

(** [strncpy(filename, src, n)] with [n] the size of [filename], and
    the string then read at [filename]: a source of [n] characters or
    more leaves no terminator, and the string runs on into the memory
    after the buffer. *)
Definition strncpy_filename (src : string) (n : nat) : M string := fun w =>
  if Nat.ltb (String.length src) n then Done src (set_filename src w)
  else
    let head := first_bytes n src in
    Done (head +:+ w_beyond w) (set_filename head w).

(** [getpwuid(getuid())]: the record, or [None] for NULL. *)
Definition getpwuid : M (option passwd) :=
  gets (fun w => sys_getpwuid (w_kern w)).

(** [p->pw_dir].  The source has no test of [p].  Through the NULL
    pointer the read is undefined in C; on Linux it is a read in the page
    at address 0, which is not mapped, and the process is ended by the
    fault: that is what is written here. *)
Definition load_pw_dir (p : option passwd) : M string :=
  match p with
  | None => crash
  | Some record => ret (pw_dir record)
  end.

(** [sscanf(input, "<verb> %s", filename)] *)
Definition sscanf (input verb : string) : M Z := fun w =>
  match scan verb input with
  | ScanStored word => Done 1 (set_filename word w)
  | r => Done (scan_return r) w
  end.

Definition decimal (z : Z) : string := NilZero.string_of_int (Z.to_int z).

(** The value of the low [bits] bits of a number read as a signed
    integer. *)
Definition signed (bits z : Z) : Z :=
  (z + 2 ^ (bits - 1)) mod 2 ^ bits - 2 ^ (bits - 1).

(** [%d] prints an [int] of 32 bits and [%ld] a [long] of 64 bits (LP64):
    the unsigned [st_uid], [st_gid] and [st_mode] given to [%d], and the
    unsigned [st_ino] and [st_nlink] given to [%ld], are printed as the
    signed value of their bits. *)
Definition print_d (z : Z) : string := decimal (signed 32 z).
Definition print_ld (z : Z) : string := decimal (signed 64 z).

Definition dquote : string := String (ascii_of_nat 34) "".

(** ** The built-ins *)

(** [do_cd(dirname)]; [dirname] points to the global [filename]. *)
Definition do_cd (dirname : string) : M Z :=
  enter (CallCd dirname) ;;
  p <- getpwuid ;;
  dirname <-
    (if Nat.eqb (strnlen dirname MAX_PATH_LENGTH) 0 then
       home <- load_pw_dir p ;;
       strncpy_filename home MAX_PATH_LENGTH
     else ret dirname) ;;
  r <- chdir dirname ;;
  if r <? 0 then
    e <- gets w_errno ;;
    fprintf_stderr ("cd: " +:+ strerror e +:+ newline) ;;
    ret (-1)
  else ret 0.

(** The loop of [do_ls]. *)
Fixpoint ls_loop (fuel : nat) (dir : Z) : M Z :=
  match fuel with
  | O => timeout
  | S fuel' =>
      d <- readdir dir ;;
      match d with
      | Some d_name =>
          e <- gets w_errno ;;
          match e with
          | None => printf (d_name +:+ newline) ;; ls_loop fuel' dir
          | Some _ =>
              fprintf_stderr
                ("ls: Cannot read entry from directory... "
                   +:+ strerror e +:+ newline) ;;
              closedir dir ;;
              ret (-1)
          end
      | None => closedir dir ;; ret 0
      end
  end.

(** One turn of the loop per entry the stream still holds, and the turn
    that meets NULL. *)
Definition ls_budget (dir : Z) (w : world) : nat :=
  S (length (default [] (w_dirs w !! dir))).

Definition do_ls (dirname : string) : M Z :=
  enter (CallLs dirname) ;;
  dir <- opendir dirname ;;
  match dir with
  | None =>
      e <- gets w_errno ;;
      fprintf_stderr ("ls: " +:+ strerror e +:+ newline) ;;
      ret (-1)
  | Some dir =>
      modify (set_errno None) ;;
      budget <- gets (ls_budget dir) ;;
      ls_loop budget dir
  end.

(** The loop of [do_cat]. *)
Fixpoint cat_loop (fuel : nat) (fd : Z) : M Z :=
  match fuel with
  | O => timeout
  | S fuel' =>
      r <- read fd BUFFER_SIZE ;;
      let '(bytesRead, chunk) := r in
      if bytesRead =? 0 then close fd ;; ret 0
      else
        failed <-
          (if bytesRead =? -1 then ret true
           else n <- write1 chunk ;; ret (negb (n =? bytesRead))) ;;
        if failed : bool then
          close fd ;;
          e <- gets w_errno ;;
          fprintf_stderr ("cat: cannot read file. " +:+ strerror e +:+ newline) ;;
          ret (-1)
        else printf newline ;; cat_loop fuel' fd
  end.

Definition script_weight (script : list read_result) : nat :=
  fold_right
    (fun r n => match r with
                | RData bytes => S (String.length bytes + n)
                | RFail _ => S n
                end) O script.

(** Every turn of the loop but the last takes at least one byte or one
    failure from what the file delivers. *)
Definition cat_budget (fd : Z) (w : world) : nat :=
  S (script_weight (default [] (open_file fd w))).

Definition do_cat (filename : string) : M Z :=
  enter (CallCat filename) ;;
  fd <- open filename ;;
  if fd =? -1 then
    close fd ;;
    e <- gets w_errno ;;
    fprintf_stderr ("cat: Cannot open file. " +:+ strerror e +:+ newline) ;;
    ret fd
  else
    budget <- gets (cat_budget fd) ;;
    cat_loop budget fd.

Definition do_mkdir (dirname : string) : M Z :=
  enter (CallMkdir dirname) ;;
  newDir <- mkdir dirname 511 ;;            (* 0777 *)
  if newDir =? -1 then
    e <- gets w_errno ;;
    fprintf_stderr
      ("mkdir: Cannot create directory. " +:+ strerror e +:+ "." +:+ newline) ;;
    ret newDir
  else ret newDir.

Definition do_rmdir (dirname : string) : M Z :=
  enter (CallRmdir dirname) ;;
  r <- rmdir dirname ;;
  if r =? -1 then
    e <- gets w_errno ;;
    fprintf_stderr
      ("rmdir: Cannot remove directory. " +:+ strerror e +:+ "." +:+ newline) ;;
    ret (-1)
  else ret 0.

(** [current_dir] is a local array without initial value: when [getcwd]
    fails, what is printed is what the stack held there. *)
Definition do_pwd : M Z :=
  enter CallPwd ;;
  cwd <- getcwd MAX_PATH_LENGTH ;;
  current_dir <-
    match cwd with
    | None =>
        e <- gets w_errno ;;
        fprintf_stderr
          ("pwd: Could not find current directory. "
             +:+ strerror e +:+ "." +:+ newline) ;;
        gets w_junk
    | Some d => ret d
    end ;;
  printf (current_dir +:+ newline) ;;
  ret 1.

Definition do_rm (filename : string) : M Z :=
  enter (CallRm filename) ;;
  rm <- unlink filename ;;
  if rm =? -1 then
    e <- gets w_errno ;;
    fprintf_stderr
      ("rm: Cannot remove file. " +:+ strerror e +:+ "." +:+ newline) ;;
    ret rm
  else ret rm.

Definition do_stat (filename : string) : M Z :=
  enter (CallStat filename) ;;
  r <- stat filename ;;
  match r with
  | (result, Some stats) =>
      printf (newline +:+ "STATS FOR " +:+ dquote +:+ filename +:+ dquote
                +:+ ":" +:+ newline) ;;
      printf ("Last access: " +:+ print_ld (st_atime stats) +:+ " ns" +:+ newline) ;;
      printf ("Last modification: " +:+ print_ld (st_mtime stats) +:+ " ns"
                +:+ newline) ;;
      printf ("Last change: " +:+ print_ld (st_ctime stats) +:+ " ns"
                +:+ newline +:+ newline) ;;
      printf ("File owner ID: " +:+ print_d (st_uid stats) +:+ newline
                +:+ "File group owner ID: " +:+ print_d (st_gid stats)
                +:+ newline) ;;
      printf ("File inode number: " +:+ print_ld (st_ino stats) +:+ newline) ;;
      printf ("File type & mode: " +:+ print_d (st_mode stats) +:+ newline) ;;
      printf ("File hard link count: " +:+ print_ld (st_nlink stats)
                +:+ newline +:+ newline) ;;
      printf ("File size: " +:+ print_ld (st_size stats) +:+ " byte(s)"
                +:+ newline) ;;
      printf ("File preferred block size: " +:+ print_ld (st_blksize stats)
                +:+ newline) ;;
      printf ("Allocated " +:+ print_ld (st_blocks stats)
                +:+ " blocks of 512 bytes" +:+ newline +:+ newline) ;;
      ret result
  | (result, None) =>
      e <- gets w_errno ;;
      fprintf_stderr
        ("stat: Cannot retrieve file stats. " +:+ strerror e +:+ "."
           +:+ newline) ;;
      ret result
  end.

Definition do_q : M Z :=
  enter CallQ ;;
  exit EXIT_SUCCESS.

(** ** The dispatcher *)

Definition execute_command (buffer : string) : M Z :=
  r <- sscanf buffer "cat" ;;
  if r =? 1 then filename <- gets w_filename ;; do_cat filename else
  r <- sscanf buffer "stat" ;;
  if r =? 1 then filename <- gets w_filename ;; do_stat filename else
  r <- sscanf buffer "mkdir" ;;
  if r =? 1 then filename <- gets w_filename ;; do_mkdir filename else
  r <- sscanf buffer "rmdir" ;;
  if r =? 1 then filename <- gets w_filename ;; do_rmdir filename else
  r <- sscanf buffer "rm" ;;
  if r =? 1 then filename <- gets w_filename ;; do_rm filename else
  r <- sscanf buffer "ls" ;;
  if (r =? 1) || (strncmp buffer "ls" BUFFER_SIZE =? 0) then
    filename <- gets w_filename ;;
    (if Nat.eqb (strnlen filename BUFFER_SIZE) 0
     then modify (set_filename ".")         (* sprintf(filename, ".") *)
     else ret tt) ;;
    filename <- gets w_filename ;;
    do_ls filename
  else
  if strncmp buffer "pwd" BUFFER_SIZE =? 0 then do_pwd else
  r <- sscanf buffer "q" ;;
  if (r =? 1) || (strncmp buffer "q" BUFFER_SIZE =? 0) then do_q else
  (if negb (Nat.eqb (strnlen buffer BUFFER_SIZE) 0) then
     fprintf_stderr
       ("myshell: " +:+ buffer +:+ ": No such file or directory" +:+ newline) ;;
     ret tt
   else ret tt) ;;
  ret (-1).

(** The branch of [main] taken on a stripped line, once [filename] has
    been cleared; what the built-in returns is dropped. *)
Definition dispatch (buffer : string) : M unit :=
  r <- sscanf buffer "cd" ;;
  if (r =? 1) || (strncmp buffer "cd" BUFFER_SIZE =? 0) then
    filename <- gets w_filename ;;
    do_cd filename ;;
    ret tt
  else if strncmp buffer "exit" BUFFER_SIZE =? 0 then exit EXIT_SUCCESS
  else execute_command buffer ;; ret tt.

(** The body of the loop of [main] for a line that [fgets] has read. *)
Definition handle_line (line : string) : M unit :=
  below <- gets w_under ;;
  match strip_trailing_whitespace (load line below) with
  | None => crash
  | Some m =>
      modify (set_under (under m)) ;;
      modify (set_filename "") ;;           (* bzero(filename, ...) *)
      dispatch (cstring (cells m))
  end.

(** ** The loop of [main] *)

(** [fgets] on what is left of standard input: at most [n] characters,
    and none after the first newline; the line and what is left. *)
Fixpoint read_line (n : nat) (input : string) : string * string :=
  match n, input with
  | S n', String c r =>
      if Ascii.eqb c (ascii_of_nat 10) then (String c "", r)
      else let '(line, rest) := read_line n' r in (String c line, rest)
  | _, _ => ("", input)
  end.

(** [fgets(buffer, size, stdin)]: [None] for NULL, at the end of the
    input. *)
Definition fgets (size : nat) (input : string) : option (string * string) :=
  match input with
  | EmptyString => None
  | _ => Some (read_line (size - 1) input)
  end.

Definition ESC : string := String (ascii_of_nat 27) "".

(** [fprintf(stdout, ...)] of the prompt.  The text ends no line: it
    stays in the buffer of stdout until a later newline, a full buffer,
    a flush before input or [exit] sends it. *)
Definition fprintf_prompt (text : string) : M Z := printf text.

(** The prompt: the working directory in bold green. *)
Definition prompt_text (current_dir : string) : string :=
  "myshell:" +:+ ESC +:+ "[32;1m" +:+ current_dir +:+ ESC +:+ "[0m> ".

Definition display_prompt : M unit :=
  cwd <- getcwd MAX_PATH_LENGTH ;;
  match cwd with
  | Some current_dir => fprintf_prompt (prompt_text current_dir) ;; ret tt
  | None => ret tt
  end.

(** The first line of a text, its newline included. *)
Definition first_line (input : string) : string :=
  fst (read_line (String.length input) input).

(** Does a line that [fgets] returns end with a newline or fill the
    buffer?  Otherwise [fgets] has met the end of the input. *)
Definition whole_line (size : nat) (line : string) : bool :=
  Nat.eqb (line_end line) (String.length line)
  || Nat.eqb (S (String.length line)) size.

(** [fgets(buffer, BUFFER_SIZE, stdin)] on what is left of standard
    input.  Once stdin has met the end of the input it stays there.
    When [fgets] needs bytes that the buffer of stdin does not hold,
    stdio reads descriptor 0, and where stdin and stdout are both line
    buffered it flushes stdout first; a terminal delivers one line. *)
Definition fgets_stdin (stdin : string) : M (option (string * string)) :=
  fun w =>
    let io := w_stdio w in
    if in_eof io then Done None w
    else
      match fgets BUFFER_SIZE stdin with
      | None =>
          let w1 := if in_tty io && out_tty io then flush_stdout w else w in
          Done None (set_stdio (taken O true (w_stdio w1)) w1)
      | Some (line, rest) =>
          let whole := whole_line BUFFER_SIZE line in
          let reads := Nat.ltb (in_ahead io) (String.length line)
                       || negb whole in
          let w1 := if reads && in_tty io && out_tty io
                    then flush_stdout w else w in
          let got := if reads then String.length (first_line stdin)
                     else in_ahead io in
          let ahead := if in_tty io then (got - String.length line)%nat
                       else O in
          Done (Some (line, rest))
               (set_stdio (taken ahead (negb whole) (w_stdio w1)) w1)
      end.

(** One turn of [while (true)], on what is left of standard input; what
    is left after it. *)
Definition main_iteration (stdin : string) : M string :=
  display_prompt ;;
  got <- fgets_stdin stdin ;;
  match got with
  | Some (buffer, rest) => handle_line buffer ;; ret rest
  | None => ret stdin
  end.

(** [main]: [fuel] turns of the loop, then the model gives up; the
    [return EXIT_SUCCESS] after the loop would be [Done]. *)
Fixpoint main_loop (fuel : nat) (stdin : string) : M Z :=
  match fuel with
  | O => timeout
  | S fuel' =>
      rest <- main_iteration stdin ;;
      main_loop fuel' rest
  end.

(** A computation that ends, that however it ends leaves the tables of
    open descriptors as they were, and that exits with status 0 only. *)
Definition polite {A} (c : M A) : Prop :=
  forall w,
    match c w with
    | Done _ w' | Crashed w' => w_fds w' = w_fds w /\ w_dirs w' = w_dirs w
    | Exited status w' =>
        status = EXIT_SUCCESS /\ w_fds w' = w_fds w /\ w_dirs w' = w_dirs w
    | Timeout => False
    end.

(** A computation that returns, with a value that satisfies [P], having
    given the [texts] to standard output, nothing to standard error, and
    left the kernel as it was. *)
Definition prints {A} (texts : list string) (P : A -> Prop) (c : M A)
  : Prop :=
  forall w, exists a w',
    c w = Done a w' /\ P a
    /\ w_out w' = (w_out w ++ map (pair Stdout) texts)%list
    /\ w_kern w' = w_kern w.

(** The report of [do_stat], text by text. *)
Definition stat_lines (filename : string) (stats : stat_t) : list string :=
  [ newline +:+ "STATS FOR " +:+ dquote +:+ filename +:+ dquote +:+ ":"
      +:+ newline;
    "Last access: " +:+ print_ld (st_atime stats) +:+ " ns" +:+ newline;
    "Last modification: " +:+ print_ld (st_mtime stats) +:+ " ns"
      +:+ newline;
    "Last change: " +:+ print_ld (st_ctime stats) +:+ " ns" +:+ newline
      +:+ newline;
    "File owner ID: " +:+ print_d (st_uid stats) +:+ newline
      +:+ "File group owner ID: " +:+ print_d (st_gid stats) +:+ newline;
    "File inode number: " +:+ print_ld (st_ino stats) +:+ newline;
    "File type & mode: " +:+ print_d (st_mode stats) +:+ newline;
    "File hard link count: " +:+ print_ld (st_nlink stats) +:+ newline
      +:+ newline;
    "File size: " +:+ print_ld (st_size stats) +:+ " byte(s)" +:+ newline;
    "File preferred block size: " +:+ print_ld (st_blksize stats)
      +:+ newline;
    "Allocated " +:+ print_ld (st_blocks stats) +:+ " blocks of 512 bytes"
      +:+ newline +:+ newline ].

(** ** What the claims speak of *)

(** The built-in of a verb, on an argument. *)
Definition builtin (v : verb) (arg : string) : M Z :=
  match v with
  | Cat => do_cat arg
  | Cd => do_cd arg
  | Stat => do_stat arg
  | Mkdir => do_mkdir arg
  | Rmdir => do_rmdir arg
  | Rm => do_rm arg
  | Ls => do_ls arg
  | Pwd => do_pwd
  | Exit => exit EXIT_SUCCESS
  | Q => do_q
  end.

(** A built-in run the way [main] runs it: its result is dropped. *)
Definition run (c : M Z) : M unit := bind c (fun _ => ret tt).

(** Nothing but the tables of descriptors matters for the leaks. *)
Definition same_handles (w w' : world) : Prop :=
  w_fds w' = w_fds w /\ w_dirs w' = w_dirs w.

(** The verb a run went to: the built-in entered last, or [exit] when
    the process ended without entering one. *)
Definition ran {A} (before : world) (r : result A) : option verb :=
  match r with
  | Done _ w' | Crashed w' =>
      option_map verb_of (last (drop (length (w_calls before)) (w_calls w')))
  | Exited _ w' =>
      match last (drop (length (w_calls before)) (w_calls w')) with
      | Some c => Some (verb_of c)
      | None => Some Exit
      end
  | Timeout => None
  end.

(** C1 as stated: a line goes to the built-in of a verb exactly when it
    is the verb alone or the verb and one argument token. *)
Definition dispatch_claim (line : string) (w : world) : Prop :=
  forall v, In v verbs ->
    (tokens line = [name v] \/ exists a, tokens line = [name v; a])
    <-> ran w (dispatch line w) = Some v.

(** C2 as stated: a non-empty line whose leading token is no verb enters
    no built-in, writes the one error line and returns -1. *)
Definition unknown_verb_claim (line : string) (w : world) : Prop :=
  line <> "" ->
  ~ In (leading_token line) (map name verbs) ->
  execute_command line w = Done (-1) (add_out (unknown_command line) w).

(** C3 as stated: each chunk of the file reaches standard output
    followed by one newline, whatever standard output is.  The bytes are
    counted once the buffer of stdout has been flushed. *)
Definition cat_claim (file : string) (w : world) : Prop :=
  forall pieces,
    sys_open file (w_kern w) = Ok (map RData pieces) ->
    Forall (fun p => p <> "") pieces ->
    w_sink w = [] ->
    exists w',
      do_cat file w = Done 0 w'
      /\ bytes_of Stdout (w_wire (flush_stdout w'))
         = bytes_of Stdout (w_wire (flush_stdout w))
           +:+ join (map (fun c => c +:+ newline)
                       (flat_map (chunks BUFFER_SIZE) pieces)).



End Shell.

Arguments world : clear implicits.
Arguments result : clear implicits.
Arguments M : clear implicits.
Arguments Done {K A} a w.
Arguments Exited {K A} status w.
Arguments Crashed {K A} w.
Arguments Timeout {K A}.

(** ** A small kernel to run the program on

    Objects are named by the very string the program passes.  It serves the
    examples; the theorems hold for every kernel. *)

Module Toy.

Inductive node :=
| File (content : string)
| Dir (entries : list string)
| Locked                      (* no permission *)
| Faulty.                     (* opens, then fails with an I/O error *)

Record kernel := Kernel {
  cwd : string;
  home : option passwd;
  tree : list (string * node) }.

Fixpoint find (path : string) (t : list (string * node)) : option node :=
  match t with
  | [] => None
  | (p, n) :: t' => if String.eqb p path then Some n else find path t'
  end.

Fixpoint remove (path : string) (t : list (string * node))
  : list (string * node) :=
  match t with
  | [] => []
  | (p, n) :: t' =>
      if String.eqb p path then remove path t' else (p, n) :: remove path t'
  end.

Definition with_tree (t : list (string * node)) (k : kernel) : kernel :=
  Kernel (cwd k) (home k) t.

Definition toy_chdir (path : string) (k : kernel) : sysret kernel :=
  match find path (tree k) with
  | Some (Dir _) => Ok (Kernel path (home k) (tree k))
  | Some (File _) => Fail ENOTDIR
  | Some Locked => Fail EACCES
  | Some Faulty => Fail EIO
  | None => Fail ENOENT
  end.

Definition toy_getcwd (size : nat) (k : kernel) : sysret string :=
  if Nat.ltb (String.length (cwd k)) size then Ok (cwd k) else Fail ERANGE.

Definition toy_mkdir (path : string) (mode : Z) (k : kernel)
  : sysret kernel :=
  match find path (tree k) with
  | Some _ => Fail EEXIST
  | None => Ok (with_tree ((path, Dir ["."; ".."]) :: tree k) k)
  end.

Definition toy_rmdir (path : string) (k : kernel) : sysret kernel :=
  match find path (tree k) with
  | Some (Dir ["."; ".."]) => Ok (with_tree (remove path (tree k)) k)
  | Some (Dir _) => Fail ENOTEMPTY
  | Some (File _) => Fail ENOTDIR
  | Some Locked => Fail EACCES
  | Some Faulty => Fail EIO
  | None => Fail ENOENT
  end.

Definition toy_unlink (path : string) (k : kernel) : sysret kernel :=
  match find path (tree k) with
  | Some (File _) => Ok (with_tree (remove path (tree k)) k)
  | Some (Dir _) => Fail EISDIR
  | Some Locked => Fail EACCES
  | Some Faulty => Fail EIO
  | None => Fail ENOENT
  end.

Definition toy_stat (path : string) (k : kernel) : sysret stat_t :=
  match find path (tree k) with
  | Some (File c) =>
      Ok (MkStat 0 0 0 1000 1000 7 33188 1 (Z.of_nat (String.length c)) 4096 8)
  | Some (Dir _) => Ok (MkStat 0 0 0 1000 1000 2 16877 2 4096 4096 8)
  | Some Locked => Fail EACCES
  | Some Faulty => Fail EIO
  | None => Fail ENOENT
  end.

Definition toy_open (path : string) (k : kernel)
  : sysret (list read_result) :=
  match find path (tree k) with
  | Some (File c) => Ok [RData c]
  | Some (Dir _) => Ok [RFail EISDIR]
  | Some Locked => Fail EACCES
  | Some Faulty => Ok [RData "ab"; RFail EIO]
  | None => Fail ENOENT
  end.

Definition toy_opendir (path : string) (k : kernel)
  : sysret (list dirent_result) :=
  match find path (tree k) with
  | Some (Dir es) => Ok (map DEntry es)
  | Some (File _) => Fail ENOTDIR
  | Some Locked => Fail EACCES
  | Some Faulty => Ok [DEntry "."; DFail EIO; DEntry ".."]
  | None => Fail ENOENT
  end.

#[export] Instance toy_posix : Posix kernel := {
  sys_chdir := toy_chdir;
  sys_getcwd := toy_getcwd;
  sys_getpwuid := home;
  sys_mkdir := toy_mkdir;
  sys_rmdir := toy_rmdir;
  sys_unlink := toy_unlink;
  sys_stat := toy_stat;
  sys_open := toy_open;
  sys_opendir := toy_opendir }.

Definition disk : list (string * node) :=
  [ (".", Dir ["."; ".."; "notes"; "src"]);
    ("/tmp", Dir ["."; ".."]);
    ("/home/u", Dir ["."; ".."; "notes"; "src"]);
    ("notes", File "hello");
    ("dir", File "precious");
    ("src", Dir ["."; ".."; "myshell.c"]);
    ("secret", Locked);
    ("faulty", Faulty) ].

Definition user : passwd := Passwd "u" 1000 "/home/u".

(** Both ends a terminal, the buffers empty. *)
Definition terminal : stdio := Stdio true 1024 "" true 0 false.

(** Standard input and output redirected to files or pipes. *)
Definition redirected : stdio := Stdio false 4096 "" false 0 false.

Definition boot (h : option passwd) : world kernel :=
  World (Kernel "/home/u" h disk) None "" [NUL] "" ∅ ∅ [] "?junk?" [] []
        terminal [].

Definition w0 : world kernel := boot (Some user).

(** A working directory whose path does not fit [MAX_PATH_LENGTH]. *)
Fixpoint deep (n : nat) : string :=
  match n with
  | O => ""
  | S n' => "/d" +:+ deep n'
  end.

Definition w_deep : world kernel :=
  World (Kernel (deep 150) None disk) None "" [NUL] "" ∅ ∅ [] "?junk?" [] []
        terminal [].

(** Standard output closed at the far end. *)
Definition w_pipe : world kernel := set_sink [WFail EPIPE] w0.

(** A disk with a directory whose path takes 300 bytes and a file of 300
    bytes. *)
Definition disk_far : list (string * node) :=
  (deep 150, Dir ["."; ".."]) :: ("long", File (deep 150)) :: disk.

Definition w_far : world kernel :=
  set_kern (Kernel "/home/u" (Some user) disk_far) w0.

(** The same, with standard input and output redirected. *)
Definition w_file : world kernel := set_stdio redirected w_far.

(** Commands piped in, standard output the terminal. *)
Definition w_piped : world kernel :=
  set_stdio (Stdio true 1024 "" false 0 false) w0.


End Toy.

(** * Properties *)

(** ** The scanner and the stripping on examples *)

Example scan_plain : scan "cat" "cat notes.txt" = ScanStored "notes.txt".
Proof. reflexivity. Qed.

Example scan_glued : scan "cat" "catnotes" = ScanStored "notes".
Proof. reflexivity. Qed.

Example scan_extra : scan "cat" "cat a b c" = ScanStored "a".
Proof. reflexivity. Qed.

Example scan_alone : scan "cat" "cat" = ScanEOF.
Proof. reflexivity. Qed.

Example scan_short : scan "cat" "ca" = ScanEOF.
Proof. reflexivity. Qed.

Example scan_other : scan "cat" "stat x" = ScanMismatch.
Proof. reflexivity. Qed.

Example strip_ex :
  option_map (fun m => cstring (cells m))
    (strip_trailing_whitespace (load ("ls  " +:+ newline) [NUL])) = Some "ls".
Proof. vm_compute. reflexivity. Qed.

Example strip_blank :
  option_map (fun m => (cstring (cells m), under m))
    (strip_trailing_whitespace (load (" " +:+ newline) [" "%char; "x"%char]))
  = Some ("", [NUL; "x"%char]).
Proof. vm_compute. reflexivity. Qed.

(** ** Facts about the string functions *)

Section Strings.

Lemma isspace_NUL : isspace NUL = false.
Proof. reflexivity. Qed.

(** [strncmp] against a text shorter than the bound is 0 exactly on the
    equal string. *)
Lemma strncmp_0_iff (n : nat) :
  forall s t, (String.length t < n)%nat -> strncmp s t n = 0 <-> s = t.
Proof.
  induction n as [|n IH]; intros s t Hlen; [lia|].
  destruct s as [|c s], t as [|d t]; simpl in *; try (split; congruence).
  destruct (Ascii.eqb_spec c d) as [->|Hne].
  - rewrite IH by lia. split; congruence.
  - split; [|congruence]. destruct (Nat.ltb _ _); discriminate.
Qed.

Lemma strncmp_refl s n : strncmp s s n = 0.
Proof.
  revert s; induction n as [|n IH]; intros [|c s]; simpl; auto.
  rewrite Ascii.eqb_refl. apply IH.
Qed.

Lemma strncmp_neq s t :
  s <> t -> (String.length t < BUFFER_SIZE)%nat ->
  (strncmp s t BUFFER_SIZE =? 0) = false.
Proof.
  intros Hne Hlen. apply Z.eqb_neq. intros E.
  apply strncmp_0_iff in E; auto.
Qed.

(** A literal is met only by an input that starts with it. *)
Lemma match_literal_prefix lit : forall input rest,
  match_literal lit input = LitRest rest -> input = lit +:+ rest.
Proof.
  induction lit as [|c lit IH]; intros [|d input] rest; simpl;
    try congruence.
  destruct (Ascii.eqb_spec c d) as [->|]; [|discriminate].
  intros E. f_equal. auto.
Qed.

Lemma match_literal_app lit rest :
  match_literal lit (lit +:+ rest) = LitRest rest.
Proof.
  induction lit as [|c lit IH]; simpl; auto.
  rewrite Ascii.eqb_refl. exact IH.
Qed.

Lemma prefix_app lit rest : String.prefix lit (lit +:+ rest) = true.
Proof.
  induction lit as [|c lit IH]; simpl; [now destruct rest|].
  destruct (ascii_dec c c); [exact IH|congruence].
Qed.

(** A line that does not start with the verb stores nothing. *)
Lemma scan_no_prefix verb input :
  String.prefix verb input = false ->
  scan verb input = ScanMismatch \/ scan verb input = ScanEOF.
Proof.
  intros Hp. unfold scan.
  destruct (match_literal verb input) as [rest| |] eqn:E; auto.
  apply match_literal_prefix in E. subst input.
  rewrite prefix_app in Hp. discriminate.
Qed.

Lemma skip_spaces_app sp s :
  all_space sp = true -> skip_spaces (sp +:+ s) = skip_spaces s.
Proof.
  induction sp as [|c sp IH]; simpl; auto.
  intros [Hc Hsp]%andb_true_iff. rewrite Hc. auto.
Qed.

Lemma skip_spaces_word word s :
  is_word word = true -> skip_spaces (word +:+ s) = word +:+ s.
Proof.
  destruct word as [|c word]; [discriminate|]. unfold is_word. simpl.
  intros [Hc _]%andb_true_iff. apply negb_true_iff in Hc. now rewrite Hc.
Qed.

Lemma scan_word_app word tail :
  no_space word = true -> is_tail tail = true ->
  scan_word (word +:+ tail) = word.
Proof.
  induction word as [|c word IH]; simpl.
  - intros _. destruct tail as [|d tail]; simpl; auto. now intros ->.
  - intros [Hc Hw]%andb_true_iff Ht. apply negb_true_iff in Hc.
    rewrite Hc. f_equal. auto.
Qed.

(** The verb, any run of white space, a word: the word is stored,
    whatever follows it. *)
Lemma scan_verb_word verb sp word tail :
  all_space sp = true -> is_word word = true -> is_tail tail = true ->
  scan verb (verb +:+ sp +:+ word +:+ tail) = ScanStored word.
Proof.
  intros Hsp Hw Ht. unfold scan. rewrite match_literal_app.
  rewrite skip_spaces_app, skip_spaces_word by auto.
  unfold is_word in Hw. apply andb_true_iff in Hw as [Hne Hns].
  rewrite scan_word_app by auto.
  destruct word; [discriminate|reflexivity].
Qed.

(** *** Stripping a blank line *)

Lemma strip_loop_S fuel m i :
  strip_loop (S fuel) m i
  = match peek m i with
    | None => None
    | Some c =>
        if isspace c then strip_loop fuel (poke m i NUL) (i - 1) else Some m
    end.
Proof. reflexivity. Qed.

(** The budget of [strip_trailing_whitespace] is never used up: from an
    index in or under the buffer, one step per cell down to the lowest
    one is enough, and more budget changes nothing.  So [None] always
    stands for a read outside the mapped cells. *)
Lemma strip_loop_budget fuel : forall m i,
  - 1 - Z.of_nat (length (under m)) <= i ->
  i + Z.of_nat (length (under m)) + 2 <= Z.of_nat fuel ->
  strip_loop fuel m i = strip_loop (S fuel) m i.
Proof.
  induction fuel as [|fuel IH]; intros m i Hlow Hfuel; [lia|].
  rewrite (strip_loop_S (S fuel)), (strip_loop_S fuel).
  destruct (peek m i) as [c|] eqn:Hpeek; [|reflexivity].
  destruct (isspace c); [|reflexivity].
  assert (Hin : - Z.of_nat (length (under m)) <= i).
  { unfold peek in Hpeek. destruct (Z.leb_spec 0 i); [lia|].
    apply lookup_lt_Some in Hpeek. lia. }
  assert (Hlen : length (under (poke m i NUL)) = length (under m)).
  { unfold poke. destruct (0 <=? i); simpl; [reflexivity|].
    apply length_insert. }
  apply IH; rewrite Hlen; lia.
Qed.

Lemma strip_loop_below fuel : forall m i m',
  i < 0 -> strip_loop fuel m i = Some m' -> cells m' = cells m.
Proof.
  induction fuel as [|fuel IH]; intros m i m' Hi; simpl; [discriminate|].
  destruct (peek m i) as [c|]; [|discriminate].
  destruct (isspace c); [|congruence].
  intros E. apply IH in E; [|lia]. rewrite E. unfold poke.
  destruct (Z.leb_spec 0 i); [lia|reflexivity].
Qed.

Lemma strip_loop_blank fuel : forall (n : nat) m m',
  (forall j, (j <= n)%nat ->
     exists c, cells m !! j = Some c /\ isspace c = true) ->
  strip_loop fuel m (Z.of_nat n) = Some m' ->
  cells m' !! 0%nat = Some NUL.
Proof.
  induction fuel as [|fuel IH]; intros n m m' Hsp; simpl; [discriminate|].
  unfold peek at 1. destruct (Z.leb_spec 0 (Z.of_nat n)); [|lia].
  rewrite Nat2Z.id. destruct (Hsp n) as (c & Hc & Hs); [lia|].
  rewrite Hc, Hs. intros E.
  assert (Hlen : (n < length (cells m))%nat) by (eapply lookup_lt_Some; eauto).
  destruct n as [|n].
  - apply strip_loop_below in E; [|lia]. rewrite E. unfold poke. simpl.
    destruct (cells m); [simpl in Hlen; lia|reflexivity].
  - replace (Z.of_nat (S n) - 1) with (Z.of_nat n) in E by lia.
    eapply IH; [|exact E]. intros j Hj. unfold poke.
    destruct (Z.leb_spec 0 (Z.of_nat (S n))); [|lia]. simpl cells.
    rewrite Nat2Z.id, list_lookup_insert_ne by lia. apply Hsp. lia.
Qed.

Lemma cstring_spaces line rest :
  all_space line = true ->
  cstring (list_ascii_of_string line ++ NUL :: rest)%list = line.
Proof.
  induction line as [|c line IH]; simpl; auto.
  intros [Hc Hl]%andb_true_iff.
  destruct (Ascii.eqb_spec c NUL) as [->|_]; [discriminate|].
  f_equal. auto.
Qed.

Lemma lookup_spaces line rest : forall j,
  all_space line = true -> (j < String.length line)%nat ->
  exists c, (list_ascii_of_string line ++ rest)%list !! j = Some c
            /\ isspace c = true.
Proof.
  induction line as [|c line IH]; simpl; intros j Hsp Hj; [lia|].
  apply andb_true_iff in Hsp as [Hc Hl].
  destruct j as [|j]; simpl; [eauto|]. apply IH; auto. lia.
Qed.

(** Stripping a line made of white space only either runs off the mapped
    memory or leaves the empty string in the buffer. *)
Lemma strip_blank_line line below :
  all_space line = true ->
  match strip_trailing_whitespace (load line below) with
  | None => True
  | Some m => cstring (cells m) = ""
  end.
Proof.
  intros Hsp. unfold strip_trailing_whitespace, load. simpl cells.
  rewrite cstring_spaces by auto.
  match goal with |- match ?e with _ => _ end => destruct e as [m|] eqn:E end;
    [|exact I].
  assert (Hhead : cells m !! 0%nat = Some NUL).
  { unfold strnlen in E.
    destruct (Nat.min (String.length line) BUFFER_SIZE) as [|n] eqn:Hn.
    - apply strip_loop_below in E; [|simpl; lia]. rewrite E. simpl.
      assert (String.length line = 0)%nat as Hz
        by (unfold BUFFER_SIZE in Hn; lia).
      destruct line; [reflexivity|discriminate].
    - replace (Z.of_nat (S n) - 1) with (Z.of_nat n) in E by lia.
      eapply strip_loop_blank; [|exact E]. intros j Hj. simpl cells.
      apply lookup_spaces; auto. lia. }
  destruct (cells m) as [|c l]; [discriminate|].
  simpl in Hhead. injection Hhead as ->. reflexivity.
Qed.

(** *** Stripping a line that holds a command *)

Lemma chars_app s t :
  list_ascii_of_string (s +:+ t)
  = (list_ascii_of_string s ++ list_ascii_of_string t)%list.
Proof. induction s as [|c s IH]; simpl; [reflexivity|]. now rewrite IH. Qed.

Lemma length_chars s : length (list_ascii_of_string s) = String.length s.
Proof. induction s as [|c s IH]; simpl; auto. Qed.

Lemma length_append s t :
  String.length (s +:+ t) = (String.length s + String.length t)%nat.
Proof. induction s as [|c s IH]; simpl; auto. Qed.

Lemma append_assoc3 a b c : (a +:+ b) +:+ c = a +:+ b +:+ c.
Proof. induction a as [|x a IH]; simpl; congruence. Qed.

Lemma append_empty s : s +:+ "" = s.
Proof. induction s as [|x s IH]; simpl; congruence. Qed.

Lemma cstring_chars s rest :
  no_nul s = true ->
  cstring (list_ascii_of_string s ++ NUL :: rest)%list = s.
Proof.
  induction s as [|c s IH]; simpl; auto.
  intros [Hc Hs]%andb_true_iff. apply negb_true_iff in Hc. rewrite Hc.
  f_equal. auto.
Qed.

Lemma all_space_no_nul s : all_space s = true -> no_nul s = true.
Proof.
  induction s as [|c s IH]; simpl; auto.
  intros [Hc Hs]%andb_true_iff. rewrite IH by assumption.
  destruct (Ascii.eqb_spec c NUL) as [->|]; [discriminate|reflexivity].
Qed.

Lemma no_nul_app s t : no_nul (s +:+ t) = no_nul s && no_nul t.
Proof.
  induction s as [|c s IH]; simpl; auto. now rewrite IH, andb_assoc.
Qed.

Lemma all_space_Forall s :
  all_space s = true ->
  Forall (fun x => isspace x = true) (list_ascii_of_string s).
Proof.
  induction s as [|c s IH]; simpl; [constructor|].
  intros [Hc Hs]%andb_true_iff. constructor; auto.
Qed.

(** From the last character of the line the walk clears the white space
    [mid] at its end and stops on the character [c] before it. *)
Lemma strip_loop_trailing mid : forall pre c post u fuel,
  isspace c = false ->
  Forall (fun x => isspace x = true) mid ->
  (length mid < fuel)%nat ->
  strip_loop fuel (LineBuf (pre ++ c :: mid ++ post) u)
             (Z.of_nat (length pre + length mid))
  = Some (LineBuf (pre ++ c :: replicate (length mid) NUL ++ post) u).
Proof.
  induction mid as [|x mid IH] using rev_ind;
    intros pre c post u fuel Hc Hmid Hfuel;
    (destruct fuel as [|fuel]; [simpl in Hfuel; lia|]);
    rewrite strip_loop_S; unfold peek;
    (destruct (Z.leb_spec 0 (Z.of_nat (length pre + length (mid ++ [x]))))
       || destruct (Z.leb_spec 0 (Z.of_nat (length pre + length (@nil ascii)))));
    try lia; rewrite Nat2Z.id; simpl cells.
  - rewrite Nat.add_0_r, list_lookup_middle by reflexivity.
    now rewrite Hc.
  - apply Forall_app in Hmid as [Hmid Hx]. rewrite Forall_singleton in Hx.
    rewrite length_app in *. simpl length in *.
    replace (pre ++ c :: (mid ++ [x]) ++ post)%list
      with ((pre ++ c :: mid) ++ x :: post)%list
      by (rewrite <- (app_assoc pre); simpl;
          now rewrite <- (app_assoc mid)).
    rewrite list_lookup_middle by (rewrite length_app; simpl; lia).
    rewrite Hx. unfold poke.
    destruct (Z.leb_spec 0 (Z.of_nat (length pre + (length mid + 1))));
      [|lia].
    rewrite Nat2Z.id. simpl cells. simpl under.
    rewrite insert_app_r_alt by (rewrite length_app; simpl; lia).
    replace (length pre + (length mid + 1)
             - length (pre ++ c :: mid)%list)%nat
      with 0%nat by (rewrite length_app; simpl; lia).
    simpl (<[0%nat:=NUL]> (x :: post)).
    replace (Z.of_nat (length pre + (length mid + 1)) - 1)
      with (Z.of_nat (length pre + length mid)) by lia.
    rewrite <- app_assoc. simpl.
    rewrite (IH pre c (NUL :: post) u fuel) by (auto; lia).
    do 2 f_equal. f_equal.
    rewrite Nat.add_1_r, replicate_S_end, <- app_assoc. reflexivity.
Qed.

#[local] Arguments strip_loop : simpl never.

(** A line that ends with white space after a character that is none is
    stripped to what comes before the white space, and nothing under the
    buffer is touched. *)
Lemma strip_command_line body c sp below :
  no_nul body = true -> isspace c = false -> c <> NUL ->
  all_space sp = true ->
  (String.length (body +:+ String c sp) < BUFFER_SIZE)%nat ->
  exists m,
    strip_trailing_whitespace (load (body +:+ String c sp) below) = Some m
    /\ cstring (cells m) = body +:+ String c ""
    /\ under m = below.
Proof.
  intros Hbody Hc Hnul Hsp Hlen.
  assert (Hline : no_nul (body +:+ String c sp) = true).
  { rewrite no_nul_app, Hbody. simpl.
    rewrite (all_space_no_nul _ Hsp), andb_true_r.
    apply negb_true_iff. now apply Ascii.eqb_neq. }
  unfold strip_trailing_whitespace, load. simpl cells. simpl under.
  rewrite cstring_chars by assumption.
  unfold strnlen. rewrite Nat.min_l by lia.
  rewrite chars_app. simpl list_ascii_of_string.
  rewrite <- app_assoc. simpl.
  rewrite length_append. simpl String.length.
  replace (Z.of_nat (String.length body + S (String.length sp)) - 1)
    with (Z.of_nat (length (list_ascii_of_string body)
                    + length (list_ascii_of_string sp)))
    by (rewrite !length_chars; lia).
  rewrite strip_loop_trailing;
    [|assumption|now apply all_space_Forall|
     rewrite length_app; simpl; rewrite length_app; simpl; lia].
  eexists. split; [reflexivity|]. split; [|reflexivity].
  simpl cells.
  replace (list_ascii_of_string body
           ++ c :: replicate (length (list_ascii_of_string sp)) NUL ++ [NUL])%list
    with (list_ascii_of_string (body +:+ String c "")
          ++ NUL :: replicate (length (list_ascii_of_string sp)) NUL)%list.
  - apply cstring_chars. rewrite no_nul_app, Hbody. simpl.
    rewrite andb_true_r. apply negb_true_iff. now apply Ascii.eqb_neq.
  - rewrite chars_app. simpl. rewrite <- app_assoc. simpl. do 2 f_equal.
    clear. induction (length (list_ascii_of_string sp)) as [|n IH];
      simpl; [reflexivity|]. now rewrite IH.
Qed.

End Strings.

(** ** Properties of the dispatcher *)

Section Dispatch.

Context {K : Type} `{Posix K}.

#[local] Arguments strncmp : simpl never.
#[local] Arguments strnlen : simpl never.

Lemma sscanf_skip {B} input verb (yes no : M K B) (w : world K) :
  String.prefix verb input = false ->
  bind (sscanf input verb) (fun r => if r =? 1 then yes else no) w = no w.
Proof.
  intros Hp. unfold bind, sscanf.
  destruct (scan_no_prefix _ _ Hp) as [-> | ->]; reflexivity.
Qed.

Lemma sscanf_skip_or {B} input verb (b : bool) (yes no : M K B) (w : world K) :
  String.prefix verb input = false ->
  bind (sscanf input verb) (fun r => if (r =? 1) || b then yes else no) w
  = (if b then yes else no) w.
Proof.
  intros Hp. unfold bind, sscanf.
  destruct (scan_no_prefix _ _ Hp) as [-> | ->]; reflexivity.
Qed.

Lemma sscanf_take {B} input verb word (yes no : M K B) (w : world K) :
  scan verb input = ScanStored word ->
  bind (sscanf input verb) (fun r => if r =? 1 then yes else no) w
  = yes (set_filename word w).
Proof. intros E. unfold bind, sscanf. now rewrite E. Qed.

Lemma sscanf_take_or {B} input verb word (b : bool) (yes no : M K B)
      (w : world K) :
  scan verb input = ScanStored word ->
  bind (sscanf input verb) (fun r => if (r =? 1) || b then yes else no) w
  = yes (set_filename word w).
Proof. intros E. unfold bind, sscanf. now rewrite E. Qed.

(** The verb itself, with nothing after it, is an input failure. *)
Lemma sscanf_alone {B} verb (yes no : M K B) (w : world K) :
  bind (sscanf verb verb) (fun r => if r =? 1 then yes else no) w = no w.
Proof.
  unfold bind, sscanf, scan.
  replace (match_literal verb verb) with (LitRest "").
  - reflexivity.
  - symmetry. rewrite <- (match_literal_app verb "") at 1.
    f_equal. clear. induction verb; simpl; congruence.
Qed.

Lemma sscanf_alone_or {B} verb (b : bool) (yes no : M K B) (w : world K) :
  bind (sscanf verb verb) (fun r => if (r =? 1) || b then yes else no) w
  = (if b then yes else no) w.
Proof.
  unfold bind, sscanf, scan.
  replace (match_literal verb verb) with (LitRest "").
  - reflexivity.
  - symmetry. rewrite <- (match_literal_app verb "") at 1.
    f_equal. clear. induction verb; simpl; congruence.
Qed.

Lemma strnlen_0 s : Nat.eqb (strnlen s BUFFER_SIZE) 0 = String.eqb s "".
Proof. destruct s; reflexivity. Qed.

(** A line that starts with none of the scanned verbs and is not [pwd]
    reaches the end of [execute_command]. *)
Lemma execute_command_unknown buffer (w : world K) :
  starts_with_any ["cat"; "stat"; "mkdir"; "rmdir"; "rm"; "ls"; "q"] buffer
    = false ->
  buffer <> "pwd" ->
  execute_command buffer w
  = if String.eqb buffer "" then Done (-1) w
    else Done (-1) (add_out (unknown_command buffer) w).
Proof.
  unfold starts_with_any. simpl existsb. rewrite !orb_false_iff.
  intros (Hcat & Hstat & Hmkdir & Hrmdir & Hrm & Hls & Hq & _) Hpwd.
  unfold execute_command.
  rewrite !sscanf_skip by assumption.
  rewrite sscanf_skip_or by assumption.
  rewrite (strncmp_neq buffer "ls"), (strncmp_neq buffer "pwd");
    [|assumption|simpl; unfold BUFFER_SIZE; lia
     |intros ->; discriminate|simpl; unfold BUFFER_SIZE; lia].
  rewrite sscanf_skip_or by assumption.
  rewrite (strncmp_neq buffer "q");
    [|intros ->; discriminate|simpl; unfold BUFFER_SIZE; lia].
  rewrite strnlen_0. destruct (String.eqb buffer ""); reflexivity.
Qed.

Ltac differ :=
  apply strncmp_neq;
  [ let E := fresh in intros E; simpl in E; discriminate E
  | simpl; unfold BUFFER_SIZE; lia ].

Ltac skip_scans :=
  repeat first [ rewrite sscanf_skip by reflexivity
               | rewrite sscanf_skip_or by reflexivity ].

Lemma is_word_nonempty word : is_word word = true -> String.eqb word "" = false.
Proof. unfold is_word. intros [E _]%andb_true_iff. now apply negb_true_iff. Qed.

(** A verb, any run of white space, a word: the built-in runs on the
    word. *)
Lemma dispatch_word v sp word tail (w : world K) :
  takes_word v = true ->
  all_space sp = true -> is_word word = true -> is_tail tail = true ->
  (v = Rm ->
   String.prefix "rmdir" (name v +:+ sp +:+ word +:+ tail) = false) ->
  dispatch (name v +:+ sp +:+ word +:+ tail) w
  = run (builtin v word) (set_filename word w).
Proof.
  intros Hv Hsp Hw Ht Hrm.
  pose proof (scan_verb_word (name v) sp word tail Hsp Hw Ht) as Hscan.
  pose proof (is_word_nonempty _ Hw) as Hne.
  unfold dispatch, execute_command.
  destruct v; try discriminate Hv; simpl name in *.
  - (* cat *)
    rewrite sscanf_skip_or by reflexivity.
    replace (strncmp _ "cd" _ =? 0) with false by (symmetry; differ).
    replace (strncmp _ "exit" _ =? 0) with false by (symmetry; differ).
    unfold bind at 1. rewrite (sscanf_take _ _ _ _ _ _ Hscan). reflexivity.
  - (* cd *)
    rewrite (sscanf_take_or _ _ _ _ _ _ _ Hscan). reflexivity.
  - (* stat *)
    rewrite sscanf_skip_or by reflexivity.
    replace (strncmp _ "cd" _ =? 0) with false by (symmetry; differ).
    replace (strncmp _ "exit" _ =? 0) with false by (symmetry; differ).
    unfold bind at 1. skip_scans.
    rewrite (sscanf_take _ _ _ _ _ _ Hscan). reflexivity.
  - (* mkdir *)
    rewrite sscanf_skip_or by reflexivity.
    replace (strncmp _ "cd" _ =? 0) with false by (symmetry; differ).
    replace (strncmp _ "exit" _ =? 0) with false by (symmetry; differ).
    unfold bind at 1. skip_scans.
    rewrite (sscanf_take _ _ _ _ _ _ Hscan). reflexivity.
  - (* rmdir *)
    rewrite sscanf_skip_or by reflexivity.
    replace (strncmp _ "cd" _ =? 0) with false by (symmetry; differ).
    replace (strncmp _ "exit" _ =? 0) with false by (symmetry; differ).
    unfold bind at 1. skip_scans.
    rewrite (sscanf_take _ _ _ _ _ _ Hscan). reflexivity.
  - (* rm *)
    rewrite sscanf_skip_or by reflexivity.
    replace (strncmp _ "cd" _ =? 0) with false by (symmetry; differ).
    replace (strncmp _ "exit" _ =? 0) with false by (symmetry; differ).
    unfold bind at 1. skip_scans.
    rewrite sscanf_skip by (apply Hrm; reflexivity).
    rewrite (sscanf_take _ _ _ _ _ _ Hscan). reflexivity.
  - (* ls *)
    rewrite sscanf_skip_or by reflexivity.
    replace (strncmp _ "cd" _ =? 0) with false by (symmetry; differ).
    replace (strncmp _ "exit" _ =? 0) with false by (symmetry; differ).
    unfold bind at 1. skip_scans.
    rewrite (sscanf_take_or _ _ _ _ _ _ _ Hscan).
    unfold bind, gets.
    change (w_filename (set_filename word w)) with word.
    rewrite strnlen_0, Hne. reflexivity.
  - (* q *)
    rewrite sscanf_skip_or by reflexivity.
    replace (strncmp _ "cd" _ =? 0) with false by (symmetry; differ).
    replace (strncmp _ "exit" _ =? 0) with false by (symmetry; differ).
    unfold bind at 1. skip_scans.
    replace (strncmp _ "ls" _ =? 0) with false by (symmetry; differ).
    replace (strncmp _ "pwd" _ =? 0) with false by (symmetry; differ).
    rewrite (sscanf_take_or _ _ _ _ _ _ _ Hscan). reflexivity.
Qed.

Ltac same := rewrite strncmp_refl; change (0 =? 0) with true.

Lemma dispatch_alone v (w : world K) :
  runs_alone v = true ->
  dispatch (name v) (set_filename "" w)
  = run (builtin v (default_arg v)) (set_filename (default_arg v) w).
Proof.
  intros Hv. unfold dispatch, execute_command.
  destruct v; try discriminate Hv; simpl name.
  - (* cd *) rewrite sscanf_alone_or. same. reflexivity.
  - (* ls *)
    skip_scans.
    replace (strncmp _ "cd" _ =? 0) with false by (symmetry; differ).
    replace (strncmp _ "exit" _ =? 0) with false by (symmetry; differ).
    unfold bind at 1. skip_scans. rewrite sscanf_alone_or. same.
    reflexivity.
  - (* pwd *)
    skip_scans.
    replace (strncmp _ "cd" _ =? 0) with false by (symmetry; differ).
    replace (strncmp _ "exit" _ =? 0) with false by (symmetry; differ).
    unfold bind at 1. skip_scans.
    replace (strncmp _ "ls" _ =? 0) with false by (symmetry; differ).
    same. reflexivity.
  - (* exit *)
    skip_scans.
    replace (strncmp _ "cd" _ =? 0) with false by (symmetry; differ).
    same. reflexivity.
  - (* q *)
    skip_scans.
    replace (strncmp _ "cd" _ =? 0) with false by (symmetry; differ).
    replace (strncmp _ "exit" _ =? 0) with false by (symmetry; differ).
    unfold bind at 1. skip_scans.
    replace (strncmp _ "ls" _ =? 0) with false by (symmetry; differ).
    replace (strncmp _ "pwd" _ =? 0) with false by (symmetry; differ).
    rewrite sscanf_alone_or. same. reflexivity.
Qed.

Lemma dispatch_rejected_alone v (w : world K) :
  rejected_alone v = true ->
  dispatch (name v) w = Done tt (add_out (unknown_command (name v)) w).
Proof.
  intros Hv. unfold dispatch, execute_command.
  destruct v; try discriminate Hv; simpl name;
    skip_scans;
    replace (strncmp _ "cd" _ =? 0) with false by (symmetry; differ);
    replace (strncmp _ "exit" _ =? 0) with false by (symmetry; differ);
    unfold bind at 1; skip_scans; rewrite sscanf_alone; skip_scans;
    replace (strncmp _ "ls" _ =? 0) with false by (symmetry; differ);
    replace (strncmp _ "pwd" _ =? 0) with false by (symmetry; differ);
    skip_scans;
    replace (strncmp _ "q" _ =? 0) with false by (symmetry; differ);
    reflexivity.
Qed.

Lemma append_nonempty s more : more <> "" -> s +:+ more <> s.
Proof.
  intros Hne E. apply Hne. clear Hne.
  induction s as [|c s IH]; simpl in E; [assumption|].
  injection E as E. auto.
Qed.

(** A line [dispatch] passes on and [execute_command] rejects. *)
Lemma dispatch_unknown buffer (w : world K) :
  starts_with_any ["cat"; "stat"; "mkdir"; "rmdir"; "rm"; "ls"; "q"] buffer
    = false ->
  String.prefix "cd" buffer = false ->
  buffer <> "pwd" -> buffer <> "exit" ->
  dispatch buffer w
  = if String.eqb buffer "" then Done tt w
    else Done tt (add_out (unknown_command buffer) w).
Proof.
  intros Hany Hcd Hpwd Hexit. unfold dispatch.
  rewrite sscanf_skip_or by assumption.
  rewrite (strncmp_neq buffer "cd"), (strncmp_neq buffer "exit");
    [|assumption|simpl; unfold BUFFER_SIZE; lia
     |intros ->; discriminate|simpl; unfold BUFFER_SIZE; lia].
  unfold bind at 1. rewrite execute_command_unknown by assumption.
  destruct (String.eqb buffer ""); reflexivity.
Qed.

Lemma dispatch_no_word v more (w : world K) :
  takes_word v = false -> more <> "" ->
  dispatch (name v +:+ more) w
  = Done tt (add_out (unknown_command (name v +:+ more)) w).
Proof.
  intros Hv Hmore.
  destruct v; try discriminate Hv; simpl name;
    (rewrite dispatch_unknown;
     [ reflexivity
     | reflexivity
     | reflexivity
     | first [ apply (append_nonempty "pwd"); assumption
             | intros E; simpl in E; discriminate E ]
     | first [ apply (append_nonempty "exit"); assumption
             | intros E; simpl in E; discriminate E ] ]).
Qed.

Lemma dispatch_empty (w : world K) : dispatch "" w = Done tt w.
Proof.
  rewrite dispatch_unknown; [reflexivity|reflexivity|reflexivity| | ];
    discriminate.
Qed.

Lemma count_newlines_app s t :
  count_newlines (s +:+ t) = (count_newlines s + count_newlines t)%nat.
Proof. induction s as [|c s IH]; simpl; [reflexivity|]. rewrite IH. lia. Qed.

(** What [main] does with a line as [fgets] delivers it, white space
    at its end included: the stripped text is dispatched. *)
Lemma handle_line_command body c sp (w : world K) :
  no_nul body = true -> isspace c = false -> c <> NUL ->
  all_space sp = true ->
  (String.length (body +:+ String c sp) < BUFFER_SIZE)%nat ->
  handle_line (body +:+ String c sp) w
  = dispatch (body +:+ String c "") (set_filename "" w).
Proof.
  intros Hbody Hc Hnul Hsp Hlen. unfold handle_line, bind, gets, modify.
  destruct (strip_command_line body c sp (w_under w) Hbody Hc Hnul Hsp Hlen)
    as (m & -> & Hstr & Hund).
  rewrite Hstr, Hund. reflexivity.
Qed.

(** *** The claims on the dispatcher *)

(** C1, as amended.  For cat, stat, mkdir, rmdir, rm, ls, cd and q, a
    line made of the characters of the verb, any run of white space (the
    empty one included) and a word is dispatched to the built-in of the
    verb on that word, whatever follows the word; for rm this is said
    only of lines that do not start with rmdir.  ls, cd, pwd, exit and q
    are dispatched on the verb alone, ls on the path ".".  cat, stat,
    mkdir and rm alone, and pwd or exit followed by anything, run no
    built-in and are reported as unknown commands. *)
Theorem dispatch_rules v sp word tail more (w : world K) :
  all_space sp = true -> is_word word = true -> is_tail tail = true ->
  more <> "" ->
  (takes_word v = true ->
   (v = Rm ->
    String.prefix "rmdir" (name v +:+ sp +:+ word +:+ tail) = false) ->
   dispatch (name v +:+ sp +:+ word +:+ tail) w
   = run (builtin v word) (set_filename word w))
  /\ (runs_alone v = true ->
      dispatch (name v) (set_filename "" w)
      = run (builtin v (default_arg v)) (set_filename (default_arg v) w))
  /\ (rejected_alone v = true ->
      dispatch (name v) w = Done tt (add_out (unknown_command (name v)) w))
  /\ (takes_word v = false ->
      dispatch (name v +:+ more) w
      = Done tt (add_out (unknown_command (name v +:+ more)) w)).
Proof.
  intros Hsp Hw Ht Hmore. repeat split.
  - intros Hv Hrm. now apply dispatch_word.
  - apply dispatch_alone.
  - apply dispatch_rejected_alone.
  - intros Hv. now apply dispatch_no_word.
Qed.

(** C2, as amended.  For every non-empty line that starts with the
    characters of none of cat, stat, mkdir, rmdir, rm, ls, q and is not
    pwd, [execute_command] enters no built-in, writes to standard error
    the one text that holds the whole line, and returns -1; the text is
    a single line when the input holds no newline.  From [main] the same
    happens when the line also does not start with cd and is not exit. *)
Theorem unknown_line_reported buffer (w : world K) :
  buffer <> "" ->
  starts_with_any ["cat"; "stat"; "mkdir"; "rmdir"; "rm"; "ls"; "q"] buffer
    = false ->
  buffer <> "pwd" ->
  count_newlines buffer = 0%nat ->
  execute_command buffer w = Done (-1) (add_out (unknown_command buffer) w)
  /\ w_calls (add_out (unknown_command buffer) w) = w_calls w
  /\ w_out (add_out (unknown_command buffer) w)
     = (w_out w ++ [(Stderr, "myshell: " +:+ buffer
                               +:+ ": No such file or directory" +:+ newline)])%list
  /\ count_newlines (snd (unknown_command buffer)) = 1%nat
  /\ (String.prefix "cd" buffer = false -> buffer <> "exit" ->
      dispatch buffer w = Done tt (add_out (unknown_command buffer) w)).
Proof.
  intros Hne Hany Hpwd Hnl.
  assert (Hnb : String.eqb buffer "" = false) by now apply String.eqb_neq.
  repeat split.
  - rewrite execute_command_unknown by assumption. now rewrite Hnb.
  - change (snd (unknown_command buffer))
      with ("myshell: " +:+ buffer +:+ ": No such file or directory"
              +:+ newline).
    rewrite !count_newlines_app, Hnl. reflexivity.
  - intros Hcd Hexit. rewrite dispatch_unknown by assumption.
    now rewrite Hnb.
Qed.

(** C9.  A line that is empty or made of white space only: once
    stripped, no built-in is entered and nothing is written to either
    stream.  (The walk of the stripping goes under the buffer; when every
    byte there is white space too it leaves the mapped memory, and the
    process ends having written nothing.) *)
Theorem blank_line_is_silent line (w : world K) :
  all_space line = true ->
  match handle_line line w with
  | Done _ w' | Crashed w' =>
      w_calls w' = w_calls w /\ w_out w' = w_out w
  | _ => False
  end.
Proof.
  intros Hsp. unfold handle_line, bind, gets.
  pose proof (strip_blank_line line (w_under w) Hsp) as Hstrip.
  destruct (strip_trailing_whitespace (load line (w_under w))) as [m|].
  - rewrite Hstrip. unfold modify. rewrite dispatch_empty.
    split; reflexivity.
  - simpl. split; reflexivity.
Qed.

(** C10.  On the empty string [execute_command] writes nothing and
    returns -1, the value it returns for a line it does not know; [main]
    drops the value. *)
Theorem empty_line_returns_failure (w : world K) :
  execute_command "" w = Done (-1) w
  /\ execute_command "frobnicate" w
     = Done (-1) (add_out (unknown_command "frobnicate") w)
  /\ dispatch "" w = Done tt w
  /\ dispatch "frobnicate" w
     = Done tt (add_out (unknown_command "frobnicate") w).
Proof.
  refine (conj _ (conj _ (conj _ _))).
  - rewrite execute_command_unknown; [reflexivity|reflexivity|discriminate].
  - rewrite execute_command_unknown; [reflexivity|reflexivity|discriminate].
  - apply dispatch_empty.
  - rewrite dispatch_unknown;
      [reflexivity|reflexivity|reflexivity|discriminate|discriminate].
Qed.

End Dispatch.

(** ** Properties of the built-ins *)

Section Builtins.

Context {K : Type} `{Posix K}.

Ltac wsimpl :=
  cbn [w_kern w_errno w_filename w_under w_beyond w_fds w_dirs w_sink
       w_junk w_out w_calls w_stdio w_wire set_kern set_errno set_filename
       set_under set_fds set_dirs set_sink set_stdio set_held add_out
       log_out add_wire add_call] in *.

Lemma bind_done {A B} (c : M K A) (k : A -> M K B) w a w' :
  c w = Done a w' -> bind c k w = k a w'.
Proof. unfold bind. now intros ->. Qed.

(** *** Texts *)

Lemma take_drop n : forall s, first_bytes n s +:+ rest_bytes n s = s.
Proof.
  induction n as [|n IH]; intros [|c s]; simpl; auto. now rewrite IH.
Qed.

Lemma length_take n : forall s,
  String.length (first_bytes n s) = Nat.min n (String.length s).
Proof.
  induction n as [|n IH]; intros [|c s]; simpl; auto.
Qed.

Lemma length_drop n : forall s,
  String.length (rest_bytes n s) = (String.length s - n)%nat.
Proof.
  induction n as [|n IH]; intros [|c s]; simpl; auto.
Qed.

Lemma take_all n s : (String.length s <= n)%nat -> first_bytes n s = s.
Proof.
  revert s. induction n as [|n IH]; intros [|c s]; simpl; auto; try lia.
  intros Hl. f_equal. apply IH. lia.
Qed.

Lemma length_0 s : String.length s = O -> s = "".
Proof. now destruct s. Qed.

(** *** Descriptors *)

Lemma fresh_key_spec {V} (t : gmap Z V) :
  t !! fresh_key t = None /\ 3 <= fresh_key t.
Proof.
  unfold fresh_key.
  assert (Hmax : 2 <= map_fold (fun k _ acc => Z.max k acc) 2 t
                 /\ forall k v, t !! k = Some v ->
                      k <= map_fold (fun k _ acc => Z.max k acc) 2 t).
  { apply (map_fold_weak_ind
             (fun r (m : gmap Z V) =>
                2 <= r /\ forall k v, m !! k = Some v -> k <= r)).
    - split; [lia|]. intros k v. rewrite lookup_empty. discriminate.
    - intros i x m r _ [Hr Hm]. split; [lia|]. intros k v.
      destruct (decide (k = i)) as [->|Hne].
      + intros _. lia.
      + rewrite lookup_insert_ne by congruence. intros Hk.
        specialize (Hm _ _ Hk). lia. }
  destruct Hmax as [H2 Hle]. split; [|lia].
  destruct (t !! Z.succ _) as [v|] eqn:E; [|reflexivity].
  apply Hle in E. lia.
Qed.

Lemma write1_handles data (w : world K) :
  exists n w', write1 data w = Done n w' /\ same_handles w w'.
Proof.
  unfold write1, same_handles.
  destruct (w_sink w) as [|[|n|e] s]; eauto.
Qed.

Lemma printf_handles text (w : world K) :
  exists n w', printf text w = Done n w' /\ same_handles w w'.
Proof.
  unfold printf, same_handles, transmit.
  destruct (Nat.eqb _ 0); [eauto|].
  destruct (drain _ _) as [[pieces [e|]] s]; eauto.
Qed.

Lemma flush_handles (w : world K) : same_handles w (flush_stdout w).
Proof.
  unfold flush_stdout, same_handles, transmit.
  destruct (String.eqb _ ""); [auto|].
  destruct (drain _ _) as [[pieces [e|]] s]; auto.
Qed.

(** A flush changes what has arrived, the outcomes to come and [errno]
    at most. *)
Lemma flush_frame (w : world K) :
  w_calls (flush_stdout w) = w_calls w
  /\ w_out (flush_stdout w) = w_out w
  /\ w_kern (flush_stdout w) = w_kern w.
Proof.
  unfold flush_stdout, transmit.
  destruct (String.eqb _ ""); [auto|].
  destruct (drain _ _) as [[pieces [e|]] s]; auto.
Qed.

Lemma drain_all data : drain [] data = ([data], None, []).
Proof. reflexivity. Qed.

Lemma line_end_newline body :
  line_end (body +:+ newline) = String.length (body +:+ newline).
Proof.
  induction body as [|c body IH]; [reflexivity|].
  cbn [String.append line_end String.length]. rewrite IH.
  destruct body; reflexivity.
Qed.

(** A text put on a stdout that takes every transfer: the text is put
    out, and nothing but the buffer and what has arrived changes. *)
Lemma printf_plain text (w : world K) :
  w_sink w = [] ->
  exists w', printf text w = Done (Z.of_nat (String.length text)) w'
             /\ w_out w' = (w_out w ++ [(Stdout, text)])%list
             /\ w_sink w' = [] /\ w_errno w' = w_errno w
             /\ w_kern w' = w_kern w /\ w_fds w' = w_fds w
             /\ w_dirs w' = w_dirs w /\ w_filename w' = w_filename w
             /\ w_calls w' = w_calls w /\ w_junk w' = w_junk w
             /\ out_tty (w_stdio w') = out_tty (w_stdio w).
Proof.
  intros Hsink. unfold printf, transmit. wsimpl. rewrite Hsink.
  destruct (Nat.eqb _ 0).
  - eexists. split; [reflexivity|]. wsimpl. auto 12.
  - cbn [drain]. eexists. split; [reflexivity|]. wsimpl. auto 12.
Qed.

(** A line put on a line buffered stdout whose buffer is empty and that
    takes every transfer: it arrives at once, as one transfer. *)
Lemma printf_line body (w : world K) :
  out_tty (w_stdio w) = true -> out_held (w_stdio w) = "" ->
  w_sink w = [] ->
  printf (body +:+ newline) w
  = Done (Z.of_nat (String.length (body +:+ newline)))
      (set_held ""
         (set_sink [] (add_wire [(Stdout, body +:+ newline)]
                         (log_out (Stdout, body +:+ newline) w)))).
Proof.
  intros Htty Hheld Hsink. unfold printf, transmit. wsimpl.
  rewrite Htty, Hheld, Hsink. cbn [String.append].
  unfold due. rewrite line_end_newline, Nat.sub_diag. cbn [Nat.leb].
  rewrite Nat.add_0_r.
  destruct (Nat.eqb_spec (String.length (body +:+ newline)) 0) as [E|_].
  - destruct body; discriminate E.
  - rewrite take_all by lia. cbn [drain map]. 
    replace (rest_bytes _ _) with "" ; [reflexivity|].
    symmetry. apply length_0. rewrite length_drop. lia.
Qed.

Lemma read_step_spec n script :
  (0 < n)%nat ->
  match read_step n script with
  | (inl (z, chunk), rest) =>
      z = Z.of_nat (String.length chunk)
      /\ (String.length chunk <= n)%nat
      /\ (z = 0 \/ (script_weight rest < script_weight script)%nat)
  | (inr _, rest) => (script_weight rest < script_weight script)%nat
  end.
Proof.
  intros Hn. destruct script as [|[bytes|e] rest]; simpl.
  - repeat split; auto. lia.
  - destruct (Nat.leb_spec (String.length bytes) n); simpl.
    + repeat split; auto. right. lia.
    + rewrite length_take, length_drop. repeat split; lia.
  - lia.
Qed.

(** Whatever the file and standard output do, the loop of [do_cat]
    returns, and with the descriptor closed. *)
Lemma open_file_insert fd script (w w' : world K) :
  0 <= fd -> w_fds w' = <[fd := script]> (w_fds w) ->
  open_file fd w' = Some script.
Proof.
  intros Hfd E. unfold open_file. rewrite E, lookup_insert_eq.
  destruct (Z.ltb_spec fd 0); [lia|reflexivity].
Qed.

Lemma cat_loop_closes fuel : forall fd (w : world K) script,
  0 <= fd ->
  open_file fd w = Some script ->
  (script_weight script < fuel)%nat ->
  exists z w', cat_loop fuel fd w = Done z w'
               /\ w_fds w' = delete fd (w_fds w)
               /\ w_dirs w' = w_dirs w.
Proof.
  induction fuel as [|fuel IH]; intros fd w script Hpos Hfd Hfuel; [lia|].
  simpl. unfold bind at 1. unfold read. rewrite Hfd.
  pose proof (read_step_spec BUFFER_SIZE script) as Hstep.
  destruct (read_step BUFFER_SIZE script) as [[[z chunk]|e] rest].
  - destruct Hstep as (Hz & Hlen & Hdec); [unfold BUFFER_SIZE; lia|].
    destruct (Z.eqb_spec z 0) as [Hz0|Hz0].
    + unfold bind, close.
      erewrite open_file_insert by (auto; reflexivity).
      eexists _, _. split; [reflexivity|]. wsimpl.
      now rewrite delete_insert_eq.
    + destruct Hdec as [|Hdec]; [contradiction|].
      destruct (Z.eqb_spec z (-1)) as [Hm|_]; [lia|].
      unfold bind at 1. unfold bind at 1.
      match goal with |- context [write1 chunk ?w1] =>
        destruct (write1_handles chunk w1) as (n & w2 & -> & Hf2 & Hd2) end.
      wsimpl. unfold ret at 1.
      destruct (negb (n =? z)).
      * unfold bind, close, gets, fprintf_stderr, ret.
        erewrite open_file_insert by (auto; exact Hf2).
        eexists _, _. split; [reflexivity|].
        wsimpl. now rewrite ?Hf2, ?Hd2, delete_insert_eq.
      * unfold bind at 1.
        destruct (printf_handles newline w2) as (n3 & w3 & -> & Hf3 & Hd3).
        destruct (IH fd w3 rest) as (z' & w' & -> & Hf' & Hd').
        { assumption. }
        { eapply open_file_insert; [assumption|]. now rewrite Hf3, Hf2. }
        { lia. }
        eexists _, _. split; [reflexivity|].
        now rewrite Hf', Hd', Hf3, Hd3, Hf2, Hd2, delete_insert_eq.
  - change (-1 =? 0) with false. change (-1 =? -1) with true.
    cbv beta iota. unfold bind, close, gets, fprintf_stderr, ret.
    erewrite open_file_insert by (auto; reflexivity).
    eexists _, _. split; [reflexivity|].
    wsimpl. now rewrite delete_insert_eq.
Qed.

(** The same for the loop of [do_ls] and the directory stream. *)
Lemma ls_loop_closes fuel : forall dir (w : world K) script,
  w_dirs w !! dir = Some script ->
  (length script < fuel)%nat ->
  exists z w', ls_loop fuel dir w = Done z w'
               /\ w_dirs w' = delete dir (w_dirs w)
               /\ w_fds w' = w_fds w.
Proof.
  induction fuel as [|fuel IH]; intros dir w script Hdir Hfuel; [lia|].
  simpl. unfold bind at 1. unfold readdir. rewrite Hdir.
  destruct script as [|[d_name|e] rest].
  - unfold bind, closedir, ret. rewrite Hdir. eauto.
  - unfold bind at 1. unfold gets. wsimpl.
    destruct (w_errno w) as [e|].
    + unfold bind, fprintf_stderr, closedir, ret. wsimpl.
      rewrite lookup_insert_eq. eexists _, _. split; [reflexivity|].
      wsimpl. now rewrite delete_insert_eq.
    + unfold bind at 1.
      match goal with |- context [printf ?t ?w1] =>
        destruct (printf_handles t w1) as (n & w2 & -> & Hf2 & Hd2) end.
      wsimpl.
      destruct (IH dir w2 rest) as (z & w' & -> & Hd' & Hf').
      { now rewrite Hd2, lookup_insert_eq. }
      { simpl in Hfuel. lia. }
      eexists _, _. split; [reflexivity|].
      now rewrite Hd', Hf', Hd2, Hf2, delete_insert_eq.
  - unfold bind, closedir, ret. wsimpl. rewrite lookup_insert_eq.
    eexists _, _. split; [reflexivity|].
    wsimpl. now rewrite delete_insert_eq.
Qed.

Lemma do_cat_handles file (w : world K) :
  exists z w', do_cat file w = Done z w' /\ same_handles w w'.
Proof.
  unfold do_cat, same_handles, enter, modify.
  unfold bind at 1. unfold bind at 1. unfold open. wsimpl.
  destruct (sys_open file (w_kern w)) as [script|e].
  - destruct (fresh_key_spec (w_fds w)) as [Hfresh Hge].
    destruct (Z.eqb_spec (fresh_key (w_fds w)) (-1)) as [Hm|_]; [lia|].
    unfold bind at 1. unfold gets at 1.
    match goal with |- context [cat_loop ?n ?fd ?w1] =>
      destruct (cat_loop_closes n fd w1 script)
        as (z & w' & -> & Hf & Hd) end.
    + lia.
    + eapply open_file_insert; [lia|reflexivity].
    + unfold cat_budget. erewrite open_file_insert; [|lia|reflexivity].
      simpl. lia.
    + eexists _, _. split; [reflexivity|]. wsimpl.
      rewrite Hf, Hd. split; [|reflexivity].
      now apply delete_insert_id.
  - change (-1 =? -1) with true. cbv beta iota.
    unfold bind, close, open_file, gets, fprintf_stderr, ret.
    change (-1 <? 0) with true. cbv beta iota. eauto.
Qed.

Lemma do_ls_handles dirname (w : world K) :
  exists z w', do_ls dirname w = Done z w' /\ same_handles w w'.
Proof.
  unfold do_ls, same_handles, enter, modify.
  unfold bind at 1. unfold bind at 1. unfold opendir. wsimpl.
  destruct (sys_opendir dirname (w_kern w)) as [script|e].
  - destruct (fresh_key_spec (w_dirs w)) as [Hfresh _].
    unfold bind at 1. unfold bind at 1. unfold gets at 1.
    match goal with |- context [ls_loop ?n ?d ?w1] =>
      destruct (ls_loop_closes n d w1 script)
        as (z & w' & -> & Hd & Hf) end.
    + wsimpl. now rewrite lookup_insert_eq.
    + unfold ls_budget. wsimpl. rewrite lookup_insert_eq. simpl. lia.
    + eexists _, _. split; [reflexivity|]. wsimpl.
      rewrite Hf, Hd. split; [reflexivity|].
      now apply delete_insert_id.
  - unfold bind, gets, fprintf_stderr, ret. eauto.
Qed.

(** C8.  [do_ls] and [do_cat] always return, and whatever the kernel, the
    file, the directory stream and standard output do on the way, the
    descriptors and directory streams open afterwards are those open
    before: what the built-in opened it has closed, on the success path
    and on every failure path. *)
Theorem handles_released arg (w : world K) :
  (exists z w', do_ls arg w = Done z w'
                /\ w_dirs w' = w_dirs w /\ w_fds w' = w_fds w)
  /\ (exists z w', do_cat arg w = Done z w'
                   /\ w_fds w' = w_fds w /\ w_dirs w' = w_dirs w).
Proof.
  split.
  - destruct (do_ls_handles arg w) as (z & w' & E & Hf & Hd). eauto.
  - destruct (do_cat_handles arg w) as (z & w' & E & Hf & Hd). eauto.
Qed.

(** *** Chunks *)

Lemma chunks_upto_fuel n f1 : forall f2 s,
  (String.length s <= f1)%nat -> (String.length s <= f2)%nat ->
  (0 < n)%nat ->
  chunks_upto f1 n s = chunks_upto f2 n s.
Proof.
  induction f1 as [|f1 IH]; intros f2 s H1 H2 Hn.
  - assert (s = "") as -> by (apply length_0; lia). now destruct f2.
  - destruct f2 as [|f2].
    + assert (s = "") as -> by (apply length_0; lia). reflexivity.
    + simpl. destruct (String.eqb s ""); [reflexivity|].
      destruct (Nat.leb_spec (String.length s) n); [reflexivity|].
      f_equal. apply IH; auto; rewrite length_drop; lia.
Qed.

Lemma chunks_small n s :
  s <> "" -> (String.length s <= n)%nat -> chunks n s = [s].
Proof.
  intros Hne Hlen. unfold chunks. destruct s as [|c s]; [congruence|].
  cbn [String.length chunks_upto].
  change (String.eqb (String c s) "") with false. cbv beta iota.
  destruct (Nat.leb_spec (S (String.length s)) n);
    [reflexivity|simpl in Hlen; lia].
Qed.

Lemma chunks_large n s :
  (0 < n)%nat -> (n < String.length s)%nat ->
  chunks n s = first_bytes n s :: chunks n (rest_bytes n s).
Proof.
  intros Hn Hlen. unfold chunks at 1.
  destruct s as [|c s]; [simpl in Hlen; lia|].
  cbn [String.length chunks_upto].
  change (String.eqb (String c s) "") with false. cbv beta iota.
  destruct (Nat.leb_spec (S (String.length s)) n); [simpl in Hlen; lia|].
  f_equal. unfold chunks. apply chunks_upto_fuel; auto.
  rewrite length_drop. simpl String.length. lia.
Qed.

(** The chunks are not empty, hold [n] characters at most, and put end
    to end give the text back. *)
Lemma chunks_spec n fuel : forall s,
  (0 < n)%nat -> (String.length s <= fuel)%nat ->
  Forall (fun c => (0 < String.length c <= n)%nat) (chunks n s)
  /\ join (chunks n s) = s.
Proof.
  induction fuel as [|fuel IH]; intros s Hn Hlen.
  - assert (s = "") as -> by (apply length_0; lia).
    split; [constructor|reflexivity].
  - destruct (Nat.leb_spec (String.length s) n) as [Hs|Hs].
    + destruct s as [|c s]; [split; [constructor|reflexivity]|].
      rewrite chunks_small by (congruence || assumption).
      split; [constructor; [simpl in *; lia|constructor]|].
      simpl. f_equal. clear. induction s; simpl; congruence.
    + rewrite chunks_large by assumption.
      destruct (IH (rest_bytes n s)) as [Hall Hjoin]; [assumption| |].
      { rewrite length_drop. lia. }
      split.
      * constructor; [rewrite length_take; lia|assumption].
      * simpl. rewrite Hjoin. apply take_drop.
Qed.

Lemma join_app l1 l2 : join (l1 ++ l2) = join l1 +:+ join l2.
Proof.
  induction l1 as [|c l1 IH]; simpl; [reflexivity|].
  rewrite IH. clear. induction c; simpl; congruence.
Qed.

Lemma chunks_pieces n pieces :
  (0 < n)%nat ->
  Forall (fun c => (0 < String.length c <= n)%nat)
         (flat_map (chunks n) pieces)
  /\ join (flat_map (chunks n) pieces) = join pieces.
Proof.
  intros Hn. induction pieces as [|p ps [IHall IHjoin]]; simpl.
  - split; [constructor|reflexivity].
  - destruct (chunks_spec n (String.length p) p Hn) as [Hall Hjoin]; [lia|].
    split.
    + apply Forall_app. now split.
    + now rewrite join_app, Hjoin, IHjoin.
Qed.

(** *** [do_cat] on a file that is read without failure *)

#[local] Arguments first_bytes : simpl never.
#[local] Arguments rest_bytes : simpl never.

Lemma printf_newline (w : world K) :
  out_tty (w_stdio w) = true -> out_held (w_stdio w) = "" ->
  w_sink w = [] ->
  printf newline w
  = Done 1 (set_held ""
              (set_sink [] (add_wire [(Stdout, newline)]
                              (log_out (Stdout, newline) w)))).
Proof. apply (printf_line ""). Qed.

(** The loop of [do_cat] on a file that delivers the data [pieces] and
    then is at its end, delivers a zero-length read, or fails; standard
    output is line buffered, its buffer empty, and it takes every
    transfer. *)
Lemma cat_loop_pieces fuel : forall pieces tail fd (w : world K),
  0 <= fd ->
  open_file fd w = Some (map RData pieces ++ tail)%list ->
  Forall (fun p => p <> "") pieces ->
  match tail with
  | RData b :: _ => b = ""
  | _ => True
  end ->
  w_sink w = [] ->
  out_tty (w_stdio w) = true -> out_held (w_stdio w) = "" ->
  (script_weight (map RData pieces ++ tail) < fuel)%nat ->
  exists w',
    cat_loop fuel fd w
    = Done match tail with RFail _ :: _ => -1 | _ => 0 end w'
    /\ w_wire w'
       = (w_wire w ++ cat_output (flat_map (chunks BUFFER_SIZE) pieces)
          ++ read_report tail)%list
    /\ w_out w'
       = (w_out w ++ cat_output (flat_map (chunks BUFFER_SIZE) pieces)
          ++ read_report tail)%list
    /\ out_held (w_stdio w') = "".
Proof.
  induction fuel as [|fuel IH];
    intros pieces tail fd w Hpos Hfd Hall Htail Hsink Htty Hheld Hfuel; [lia|].
  simpl cat_loop. unfold bind at 1. unfold read. rewrite Hfd.
  destruct pieces as [|p ps]; simpl map; simpl app.
  - destruct tail as [|[b|e] rest].
    + simpl. unfold bind, close.
      erewrite open_file_insert by (auto; reflexivity).
      eexists. split; [reflexivity|]. wsimpl. now rewrite !app_nil_r.
    + subst b. simpl. unfold bind, close.
      erewrite open_file_insert by (auto; reflexivity).
      eexists. split; [reflexivity|]. wsimpl. now rewrite !app_nil_r.
    + simpl read_step. cbv beta iota.
      change (-1 =? 0) with false. change (-1 =? -1) with true.
      cbv beta iota. unfold bind, close, gets, fprintf_stderr, ret.
      erewrite open_file_insert by (auto; reflexivity).
      eexists. split; [reflexivity|]. wsimpl. auto.
  - apply Forall_cons in Hall as [Hp Hps].
    assert (Hlp : (0 < String.length p)%nat).
    { destruct p; [congruence|simpl; lia]. }
    simpl read_step.
    destruct (Nat.leb_spec (String.length p) BUFFER_SIZE) as [Hs|Hs].
    + destruct (Z.eqb_spec (Z.of_nat (String.length p)) 0); [lia|].
      destruct (Z.eqb_spec (Z.of_nat (String.length p)) (-1)); [lia|].
      unfold bind at 1. unfold bind at 1. unfold write1. wsimpl.
      rewrite Hsink. unfold ret at 1. rewrite Z.eqb_refl.
      change (negb true) with false. cbv beta iota.
      unfold bind at 1. rewrite printf_newline by (wsimpl; assumption).
      match goal with |- context [cat_loop fuel fd ?w1] =>
        destruct (IH ps tail fd w1) as (w' & -> & Hwire & Hout & Hh) end;
        auto.
      { eapply open_file_insert; [assumption|reflexivity]. }
      { simpl in Hfuel. lia. }
      eexists. split; [reflexivity|]. rewrite Hwire, Hout. wsimpl.
      simpl flat_map. rewrite chunks_small by assumption.
      simpl. now rewrite <- !app_assoc.
    + destruct (Z.eqb_spec (Z.of_nat BUFFER_SIZE) 0);
        [unfold BUFFER_SIZE in *; lia|].
      destruct (Z.eqb_spec (Z.of_nat BUFFER_SIZE) (-1)); [lia|].
      unfold bind at 1. unfold bind at 1. unfold write1. wsimpl.
      rewrite Hsink. unfold ret at 1.
      rewrite length_take, Nat.min_l by lia. rewrite Z.eqb_refl.
      change (negb true) with false. cbv beta iota.
      unfold bind at 1. rewrite printf_newline by (wsimpl; assumption).
      match goal with |- context [cat_loop fuel fd ?w1] =>
        destruct (IH (rest_bytes BUFFER_SIZE p :: ps) tail fd w1)
          as (w' & -> & Hwire & Hout & Hh)
      end; auto.
      { eapply open_file_insert; [assumption|reflexivity]. }
      { constructor; [|assumption]. intros E.
        apply (f_equal String.length) in E. rewrite length_drop in E.
        simpl in E. lia. }
      { simpl in Hfuel |- *. rewrite length_drop.
        unfold BUFFER_SIZE in *. lia. }
      eexists. split; [reflexivity|]. rewrite Hwire, Hout. wsimpl.
      simpl flat_map.
      rewrite (chunks_large BUFFER_SIZE p) by (unfold BUFFER_SIZE in *; lia).
      simpl. now rewrite <- !app_assoc.
Qed.

Lemma do_cat_pieces file pieces tail (w : world K) :
  sys_open file (w_kern w) = Ok (map RData pieces ++ tail)%list ->
  Forall (fun p => p <> "") pieces ->
  match tail with
  | RData b :: _ => b = ""
  | _ => True
  end ->
  w_sink w = [] ->
  out_tty (w_stdio w) = true -> out_held (w_stdio w) = "" ->
  exists w',
    do_cat file w
    = Done match tail with RFail _ :: _ => -1 | _ => 0 end w'
    /\ w_wire w'
       = (w_wire w ++ cat_output (flat_map (chunks BUFFER_SIZE) pieces)
          ++ read_report tail)%list
    /\ w_out w'
       = (w_out w ++ cat_output (flat_map (chunks BUFFER_SIZE) pieces)
          ++ read_report tail)%list
    /\ out_held (w_stdio w') = "".
Proof.
  intros Hopen Hall Htail Hsink Htty Hheld. unfold do_cat, enter, modify.
  unfold bind at 1. unfold bind at 1. unfold open. wsimpl. rewrite Hopen.
  destruct (fresh_key_spec (w_fds w)) as [_ Hge].
  destruct (Z.eqb_spec (fresh_key (w_fds w)) (-1)) as [Hm|_]; [lia|].
  unfold bind at 1. unfold gets at 1.
  match goal with |- context [cat_loop ?n ?fd ?w1] =>
    destruct (cat_loop_pieces n pieces tail fd w1)
      as (w' & -> & Hwire & Hout & Hh)
  end; auto.
  - lia.
  - eapply open_file_insert; [lia|reflexivity].
  - unfold cat_budget. erewrite open_file_insert; [|lia|reflexivity].
    simpl. lia.
  - eauto.
Qed.

(** A text put on a fully buffered stdout that has room for it: it
    stays in the buffer. *)
Lemma printf_held text (w : world K) :
  out_tty (w_stdio w) = false ->
  (String.length (out_held (w_stdio w) +:+ text) <= out_room (w_stdio w))%nat ->
  printf text w
  = Done (Z.of_nat (String.length text))
      (set_held (out_held (w_stdio w) +:+ text) (log_out (Stdout, text) w)).
Proof.
  intros Htty Hroom. unfold printf, due. rewrite Htty.
  rewrite Nat.sub_0_r. apply Nat.leb_le in Hroom. now rewrite Hroom.
Qed.

(** The loop of [do_cat] where standard output is fully buffered, takes
    every transfer, and has room in its buffer for the newlines. *)
Lemma cat_loop_held fuel : forall pieces tail fd (w : world K) held,
  0 <= fd ->
  open_file fd w = Some (map RData pieces ++ tail)%list ->
  Forall (fun p => p <> "") pieces ->
  match tail with
  | RData b :: _ => b = ""
  | _ => True
  end ->
  w_sink w = [] ->
  out_tty (w_stdio w) = false -> out_held (w_stdio w) = held ->
  (String.length held + length (flat_map (chunks BUFFER_SIZE) pieces)
   <= out_room (w_stdio w))%nat ->
  (script_weight (map RData pieces ++ tail) < fuel)%nat ->
  exists w',
    cat_loop fuel fd w
    = Done match tail with RFail _ :: _ => -1 | _ => 0 end w'
    /\ w_wire w'
       = (w_wire w
          ++ map (pair Stdout) (flat_map (chunks BUFFER_SIZE) pieces)
          ++ read_report tail)%list
    /\ out_held (w_stdio w')
       = held +:+ newlines (length (flat_map (chunks BUFFER_SIZE) pieces)).
Proof.
  induction fuel as [|fuel IH];
    intros pieces tail fd w held Hpos Hfd Hall Htail Hsink Htty Hheld Hroom
      Hfuel; [lia|].
  simpl cat_loop. unfold bind at 1. unfold read. rewrite Hfd.
  destruct pieces as [|p ps]; simpl map; simpl app.
  - destruct tail as [|[b|e] rest].
    + simpl. unfold bind, close.
      erewrite open_file_insert by (auto; reflexivity).
      eexists. split; [reflexivity|]. wsimpl.
      rewrite !app_nil_r. split; [reflexivity|].
      rewrite Hheld. symmetry. apply append_empty.
    + subst b. simpl. unfold bind, close.
      erewrite open_file_insert by (auto; reflexivity).
      eexists. split; [reflexivity|]. wsimpl.
      rewrite !app_nil_r. split; [reflexivity|].
      rewrite Hheld. symmetry. apply append_empty.
    + simpl read_step. cbv beta iota.
      change (-1 =? 0) with false. change (-1 =? -1) with true.
      cbv beta iota. unfold bind, close, gets, fprintf_stderr, ret.
      erewrite open_file_insert by (auto; reflexivity).
      eexists. split; [reflexivity|]. wsimpl. split; [reflexivity|].
      rewrite Hheld. symmetry. apply append_empty.
  - apply Forall_cons in Hall as [Hp Hps].
    assert (Hlp : (0 < String.length p)%nat).
    { destruct p; [congruence|simpl; lia]. }
    simpl read_step.
    destruct (Nat.leb_spec (String.length p) BUFFER_SIZE) as [Hs|Hs].
    + destruct (Z.eqb_spec (Z.of_nat (String.length p)) 0); [lia|].
      destruct (Z.eqb_spec (Z.of_nat (String.length p)) (-1)); [lia|].
      simpl flat_map in Hroom |- *.
      rewrite chunks_small in Hroom |- * by assumption.
      cbn [app length] in Hroom.
      unfold bind at 1. unfold bind at 1. unfold write1. wsimpl.
      rewrite Hsink. unfold ret at 1. rewrite Z.eqb_refl.
      change (negb true) with false. cbv beta iota.
      unfold bind at 1.
      rewrite printf_held
        by (wsimpl; first [assumption
                          |rewrite Hheld, length_append; simpl; lia]).
      match goal with |- context [cat_loop fuel fd ?w1] =>
        destruct (IH ps tail fd w1 (held +:+ newline))
          as (w' & -> & Hwire & Hh) end; auto.
      { eapply open_file_insert; [assumption|reflexivity]. }
      { wsimpl. now rewrite Hheld. }
      { wsimpl. rewrite length_append. simpl. lia. }
      { simpl in Hfuel. lia. }
      eexists. split; [reflexivity|]. rewrite Hwire, Hh. wsimpl.
      split.
      * simpl. now rewrite <- !app_assoc.
      * cbn [app length]. rewrite append_assoc3. reflexivity.
    + destruct (Z.eqb_spec (Z.of_nat BUFFER_SIZE) 0);
        [unfold BUFFER_SIZE in *; lia|].
      destruct (Z.eqb_spec (Z.of_nat BUFFER_SIZE) (-1)); [lia|].
      simpl flat_map in Hroom |- *.
      rewrite (chunks_large BUFFER_SIZE p) in Hroom |- *
        by (unfold BUFFER_SIZE in *; lia).
      cbn [app length] in Hroom.
      unfold bind at 1. unfold bind at 1. unfold write1. wsimpl.
      rewrite Hsink. unfold ret at 1.
      rewrite length_take, Nat.min_l by lia. rewrite Z.eqb_refl.
      change (negb true) with false. cbv beta iota.
      unfold bind at 1.
      rewrite printf_held
        by (wsimpl; first [assumption
                          |rewrite Hheld, length_append; simpl; lia]).
      match goal with |- context [cat_loop fuel fd ?w1] =>
        destruct (IH (rest_bytes BUFFER_SIZE p :: ps) tail fd w1
                    (held +:+ newline))
          as (w' & -> & Hwire & Hh)
      end; auto.
      { eapply open_file_insert; [assumption|reflexivity]. }
      { constructor; [|assumption]. intros E.
        apply (f_equal String.length) in E. rewrite length_drop in E.
        simpl in E. lia. }
      { wsimpl. now rewrite Hheld. }
      { wsimpl. rewrite length_append. simpl flat_map. simpl. lia. }
      { simpl in Hfuel |- *. rewrite length_drop.
        unfold BUFFER_SIZE in *. lia. }
      eexists. split; [reflexivity|]. rewrite Hwire, Hh. wsimpl.
      simpl flat_map. split.
      * simpl. now rewrite <- !app_assoc.
      * cbn [app length]. rewrite append_assoc3. reflexivity.
Qed.

(** X19.  Standard output fully buffered (a file or a pipe), taking
    every transfer, with room in its buffer: [do_cat] sends the chunks to
    descriptor 1 one after the other with nothing between them, and then
    its report to standard error when a [read] has failed; the newlines,
    one for each chunk, are not sent: they stay in the buffer of stdout,
    behind what it held, until a flush. *)
Theorem cat_redirected_holds_newlines file pieces tail (w : world K) :
  sys_open file (w_kern w) = Ok (map RData pieces ++ tail)%list ->
  Forall (fun p => p <> "") pieces ->
  match tail with
  | RData b :: _ => b = ""
  | _ => True
  end ->
  w_sink w = [] ->
  out_tty (w_stdio w) = false ->
  (String.length (out_held (w_stdio w))
   + length (flat_map (chunks BUFFER_SIZE) pieces)
   <= out_room (w_stdio w))%nat ->
  exists w',
    do_cat file w
    = Done match tail with RFail _ :: _ => -1 | _ => 0 end w'
    /\ w_wire w'
       = (w_wire w
          ++ map (pair Stdout) (flat_map (chunks BUFFER_SIZE) pieces)
          ++ read_report tail)%list
    /\ out_held (w_stdio w')
       = out_held (w_stdio w)
         +:+ newlines (length (flat_map (chunks BUFFER_SIZE) pieces)).
Proof.
  intros Hopen Hall Htail Hsink Htty Hroom. unfold do_cat, enter, modify.
  unfold bind at 1. unfold bind at 1. unfold open. wsimpl. rewrite Hopen.
  destruct (fresh_key_spec (w_fds w)) as [_ Hge].
  destruct (Z.eqb_spec (fresh_key (w_fds w)) (-1)) as [Hm|_]; [lia|].
  unfold bind at 1. unfold gets at 1.
  match goal with |- context [cat_loop ?n ?fd ?w1] =>
    destruct (cat_loop_held n pieces tail fd w1 (out_held (w_stdio w)))
      as (w' & -> & Hwire & Hh)
  end; auto.
  - lia.
  - eapply open_file_insert; [lia|reflexivity].
  - unfold cat_budget. erewrite open_file_insert; [|lia|reflexivity].
    simpl. lia.
  - eauto.
Qed.

Lemma do_cat_missing file e (w : world K) :
  sys_open file (w_kern w) = Fail e ->
  do_cat file w
  = Done (-1)
      (add_out (Stderr, "cat: Cannot open file. " +:+ strerror (Some EBADF)
                          +:+ newline)
         (set_errno (Some EBADF) (add_call (CallCat file) w))).
Proof.
  intros Hopen. unfold do_cat, enter, modify.
  unfold bind at 1. unfold bind at 1. unfold open. wsimpl. rewrite Hopen.
  reflexivity.
Qed.

(** C3.  Standard output a terminal, its buffer empty, that takes all
    that is sent to it: on a file that opens and whose reads all deliver
    data, [do_cat] reads pieces of at most 256 bytes until the zero-length
    read, and each arrives at descriptor 1 followed at once by one
    newline; [do_cat] returns 0; a content that fits one chunk arrives
    followed by one newline.  Whatever standard output is, on a file
    that does not open [do_cat] sends one report to standard error,
    nothing to standard output, and returns -1. *)
Theorem cat_contract file missing pieces content e (w any : world K) :
  sys_open file (w_kern w) = Ok (map RData pieces) ->
  Forall (fun p => p <> "") pieces ->
  w_sink w = [] ->
  out_tty (w_stdio w) = true -> out_held (w_stdio w) = "" ->
  (0 < String.length content <= BUFFER_SIZE)%nat ->
  sys_open missing (w_kern any) = Fail e ->
  (exists w', do_cat file w = Done 0 w'
              /\ w_wire w'
                 = (w_wire w
                    ++ cat_output (flat_map (chunks BUFFER_SIZE) pieces))%list
              /\ out_held (w_stdio w') = "")
  /\ Forall (fun c => (0 < String.length c <= BUFFER_SIZE)%nat)
            (flat_map (chunks BUFFER_SIZE) pieces)
  /\ join (flat_map (chunks BUFFER_SIZE) pieces) = join pieces
  /\ (pieces = [content] ->
      exists w', do_cat file w = Done 0 w'
                 /\ w_wire w'
                    = (w_wire w ++ [(Stdout, content); (Stdout, newline)])%list
                 /\ out_held (w_stdio w') = "")
  /\ (exists w', do_cat missing any = Done (-1) w'
                 /\ w_wire w'
                    = (w_wire any
                       ++ [(Stderr, "cat: Cannot open file. "
                                      +:+ strerror (Some EBADF) +:+ newline)])%list
                 /\ w_stdio w' = w_stdio any).
Proof.
  intros Hopen Hall Hsink Htty Hheld Hlen Hmiss.
  destruct (do_cat_pieces file pieces [] w) as (w' & E & Hwire & _ & Hh);
    auto.
  { now rewrite app_nil_r. }
  rewrite !app_nil_r in Hwire.
  destruct (chunks_pieces BUFFER_SIZE pieces) as [Hb Hj];
    [unfold BUFFER_SIZE; lia|].
  refine (conj _ (conj Hb (conj Hj (conj _ _)))).
  - eauto.
  - intros ->. exists w'. split; [assumption|]. rewrite Hwire.
    simpl flat_map. rewrite chunks_small; [auto| |lia].
    intros ->. simpl in Hlen. lia.
  - rewrite (do_cat_missing _ _ _ Hmiss). eauto.
Qed.

(** *** The built-ins that are one call *)


Lemma do_mkdir_contract dirname (w : world K) :
  do_mkdir dirname w
  = match sys_mkdir dirname 511 (w_kern w) with
    | Ok k' => Done 0 (set_kern k' (add_call (CallMkdir dirname) w))
    | Fail e =>
        Done (-1)
          (add_out (Stderr, "mkdir: Cannot create directory. "
                              +:+ strerror (Some e) +:+ "." +:+ newline)
             (set_errno (Some e) (add_call (CallMkdir dirname) w)))
    end.
Proof.
  unfold do_mkdir, enter, modify, mkdir, path_call.
  unfold bind at 1. unfold bind at 1. wsimpl.
  destruct (sys_mkdir dirname 511 (w_kern w)); reflexivity.
Qed.

Lemma do_rmdir_contract dirname (w : world K) :
  do_rmdir dirname w
  = match sys_rmdir dirname (w_kern w) with
    | Ok k' => Done 0 (set_kern k' (add_call (CallRmdir dirname) w))
    | Fail e =>
        Done (-1)
          (add_out (Stderr, "rmdir: Cannot remove directory. "
                              +:+ strerror (Some e) +:+ "." +:+ newline)
             (set_errno (Some e) (add_call (CallRmdir dirname) w)))
    end.
Proof.
  unfold do_rmdir, enter, modify, rmdir, path_call.
  unfold bind at 1. unfold bind at 1. wsimpl.
  destruct (sys_rmdir dirname (w_kern w)); reflexivity.
Qed.

Lemma do_rm_contract file (w : world K) :
  do_rm file w
  = match sys_unlink file (w_kern w) with
    | Ok k' => Done 0 (set_kern k' (add_call (CallRm file) w))
    | Fail e =>
        Done (-1)
          (add_out (Stderr, "rm: Cannot remove file. "
                              +:+ strerror (Some e) +:+ "." +:+ newline)
             (set_errno (Some e) (add_call (CallRm file) w)))
    end.
Proof.
  unfold do_rm, enter, modify, unlink, path_call.
  unfold bind at 1. unfold bind at 1. wsimpl.
  destruct (sys_unlink file (w_kern w)); reflexivity.
Qed.

Lemma do_stat_fails file e (w : world K) :
  sys_stat file (w_kern w) = Fail e ->
  do_stat file w
  = Done (-1)
      (add_out (Stderr, "stat: Cannot retrieve file stats. "
                          +:+ strerror (Some e) +:+ "." +:+ newline)
         (set_errno (Some e) (add_call (CallStat file) w))).
Proof.
  intros E. unfold do_stat, enter, modify, stat.
  unfold bind at 1. unfold bind at 1. wsimpl. now rewrite E.
Qed.


(** [do_cd] on the empty argument, without a record: [p] is NULL and
    [p->pw_dir] is read. *)
Lemma do_cd_no_record (w : world K) :
  sys_getpwuid (w_kern w) = None ->
  do_cd "" w = Crashed (add_call (CallCd "") w).
Proof.
  intros Hpw. unfold do_cd, enter, modify, getpwuid, gets.
  unfold bind at 1. unfold bind at 1. wsimpl. rewrite Hpw. reflexivity.
Qed.


Lemma do_pwd_lost e (w : world K) :
  sys_getcwd MAX_PATH_LENGTH (w_kern w) = Fail e ->
  w_sink w = [] ->
  exists w',
    do_pwd w = Done 1 w'
    /\ w_out w'
       = (w_out w
          ++ [(Stderr, "pwd: Could not find current directory. "
                         +:+ strerror (Some e) +:+ "." +:+ newline);
              (Stdout, w_junk w +:+ newline)])%list.
Proof.
  intros Hcwd Hsink. unfold do_pwd, enter, modify, getcwd.
  unfold bind at 1. unfold bind at 1. wsimpl. rewrite Hcwd.
  unfold bind at 1. unfold bind at 1. unfold gets at 1.
  unfold bind at 1. unfold fprintf_stderr at 1. unfold gets at 1.
  unfold bind.
  match goal with |- context [printf ?t ?w1] =>
    destruct (printf_plain t w1) as (w' & -> & Hout & _) end;
    [assumption|].
  unfold ret. eexists. split; [reflexivity|]. rewrite Hout. wsimpl.
  now rewrite <- app_assoc.
Qed.

Lemma do_pwd_returns_1 (w : world K) : exists w', do_pwd w = Done 1 w'.
Proof.
  unfold do_pwd, enter, modify, getcwd.
  unfold bind at 1. unfold bind at 1. wsimpl.
  destruct (sys_getcwd MAX_PATH_LENGTH (w_kern w)) as [d|e];
    unfold bind, ret, gets, fprintf_stderr;
    match goal with |- context [printf ?t ?w1] =>
      destruct (printf_handles t w1) as (n & w' & -> & _) end; eauto.
Qed.


(** C6.  [do_pwd] returns 1 in every case.  When [getcwd] fails it
    writes the reason to standard error and then prints to standard
    output what its buffer, never written, holds. *)
Theorem pwd_contract e (w any : world K) :
  sys_getcwd MAX_PATH_LENGTH (w_kern w) = Fail e ->
  w_sink w = [] ->
  (exists w', do_pwd any = Done 1 w')
  /\ (exists w',
        do_pwd w = Done 1 w'
        /\ w_out w'
           = (w_out w
              ++ [(Stderr, "pwd: Could not find current directory. "
                             +:+ strerror (Some e) +:+ "." +:+ newline);
                  (Stdout, w_junk w +:+ newline)])%list).
Proof.
  intros Hcwd Hsink. split; [apply do_pwd_returns_1|].
  now apply do_pwd_lost.
Qed.


End Builtins.

(** ** Runs on the small kernel *)

Module Runs.

Import Toy.

Example tokens_ex : tokens "cat  notes extra " = ["cat"; "notes"; "extra"].
Proof. reflexivity. Qed.

(** C1 fails on a verb with two argument tokens: [cat notes extra] is
    run as [cat notes]. *)
Lemma dispatch_claim_fails : ~ dispatch_claim "cat notes extra" w0.
Proof.
  intros Hc. destruct (Hc Cat) as [_ Hback]; [simpl; auto|].
  destruct Hback as [E|[a E]]; [vm_compute; reflexivity| |];
    vm_compute in E; discriminate E.
Qed.

(** The other ways C1 fails: a verb glued to its argument is run, a
    verb that needs a word is not run alone, [pwd] with an argument is
    not run. *)
Example glued_verb_runs : ran w0 (dispatch "catnotes" w0) = Some Cat.
Proof. vm_compute. reflexivity. Qed.

Example cat_alone_not_run : ran w0 (dispatch "cat" w0) = None.
Proof. vm_compute. reflexivity. Qed.

Example pwd_with_argument_not_run : ran w0 (dispatch "pwd x" w0) = None.
Proof. vm_compute. reflexivity. Qed.

(** [rmdir] alone is an input failure for its own pattern and then meets
    the pattern of [rm]: the file called [dir] is removed. *)
Example rmdir_alone_runs_rm :
  exists w', dispatch "rmdir" w0 = Done tt w'
             /\ w_calls w' = [CallRm "dir"]
             /\ find "dir" (tree (w_kern w0)) = Some (File "precious")
             /\ find "dir" (tree (w_kern w')) = None.
Proof. eexists. split; [vm_compute; reflexivity|]. repeat split. Qed.

(** C2 fails on a line whose leading token only starts with a verb:
    [catnotes] is no verb, and [do_cat] is entered and returns 0. *)
Lemma unknown_verb_claim_fails : ~ unknown_verb_claim "catnotes" w0.
Proof.
  intros Hc. unfold unknown_verb_claim in Hc.
  assert (E : execute_command "catnotes" w0
              = Done (-1) (add_out (unknown_command "catnotes") w0)).
  { apply Hc; [discriminate|].
    intros Hin. simpl in Hin.
    repeat (destruct Hin as [Hin|Hin]; [discriminate Hin|]).
    exact Hin. }
  vm_compute in E. discriminate E.
Qed.

(** From the line as typed to the built-in. *)
Example typed_line :
  exists w', handle_line ("cat notes extra  " +:+ newline) w0 = Done tt w'
             /\ w_calls w' = [CallCat "notes"]
             /\ w_out w' = [(Stdout, "hello"); (Stdout, newline)].
Proof. eexists. split; [vm_compute; reflexivity|]. split; reflexivity. Qed.

(** *** Instances of the theorems *)

Lemma dispatch_rules_witness :
  dispatch "cat notes extra" w0
  = run (builtin Cat "notes") (set_filename "notes" w0).
Proof.
  apply (proj1 (dispatch_rules Cat " " "notes" " extra" "x" w0
                  eq_refl eq_refl eq_refl ltac:(discriminate)));
    [reflexivity|discriminate].
Defined.

Lemma unknown_line_reported_witness :
  execute_command "frobnicate" w0
  = Done (-1) (add_out (unknown_command "frobnicate") w0).
Proof.
  apply (proj1 (unknown_line_reported "frobnicate" w0
                  ltac:(discriminate) eq_refl ltac:(discriminate) eq_refl)).
Defined.

Lemma blank_line_is_silent_witness :
  match handle_line ("  " +:+ newline) w0 with
  | Done _ w' | Crashed w' => w_calls w' = w_calls w0 /\ w_out w' = w_out w0
  | _ => False
  end.
Proof. apply (blank_line_is_silent ("  " +:+ newline) w0 eq_refl). Defined.

Lemma cat_contract_witness :
  exists w', do_cat "notes" w0 = Done 0 w'
             /\ w_wire w' = [(Stdout, "hello"); (Stdout, newline)]
             /\ out_held (w_stdio w') = "".
Proof.
  apply (cat_contract "notes" "nothing" ["hello"] "hello" ENOENT w0 w_file);
    [ reflexivity
    | repeat constructor; discriminate
    | reflexivity
    | reflexivity
    | reflexivity
    | simpl; unfold BUFFER_SIZE; lia
    | reflexivity
    | reflexivity ].
Defined.

(** C3 fails where standard output is no terminal: of a file of two
    chunks the chunks arrive one after the other, and the two newlines
    after them, when the buffer is flushed. *)
Lemma cat_claim_fails : ~ cat_claim "long" w_file.
Proof.
  intros Hc. destruct (Hc [deep 150]) as (w' & E & Hbytes);
    [ reflexivity
    | repeat constructor; discriminate
    | reflexivity
    | ].
  vm_compute in E. injection E as <-.
  vm_compute in Hbytes. discriminate Hbytes.
Qed.

Example cat_redirected :
  exists w', do_cat "long" w_file = Done 0 w'
             /\ w_wire w' = map (pair Stdout) (chunks BUFFER_SIZE (deep 150))
             /\ out_held (w_stdio w') = newline +:+ newline.
Proof. eexists. split; [vm_compute; reflexivity|]. split; reflexivity. Qed.




Lemma pwd_contract_witness : exists w', do_pwd w0 = Done 1 w'.
Proof.
  apply (pwd_contract ERANGE w_deep w0); reflexivity.
Defined.


(** *** C4 on [do_cat] and [do_ls] *)

(** C4 at its failing inputs.  A file that is not there: the kernel's
    reason is ENOENT, and the line [do_cat] writes gives the reason of
    the [close(-1)] that it runs before printing.  A directory whose
    second [readdir] fails: [do_ls] writes nothing to standard error and
    returns 0. *)
Theorem failure_reports_diverge :
  sys_open "nothing" (w_kern w0) = Fail ENOENT
  /\ (exists w', do_cat "nothing" w0 = Done (-1) w'
                 /\ w_out w'
                    = [(Stderr, "cat: Cannot open file. Bad file descriptor"
                                  +:+ newline)])
  /\ sys_opendir "faulty" (w_kern w0)
     = Ok [DEntry "."; DFail EIO; DEntry ".."]
  /\ (exists w', do_ls "faulty" w0 = Done 0 w'
                 /\ w_out w' = [(Stdout, "." +:+ newline)]).
Proof.
  refine (conj eq_refl (conj _ (conj eq_refl _)));
    eexists; (split; [vm_compute; reflexivity|reflexivity]).
Qed.

(** A transfer to standard output cut short: the reason printed is
    whatever [errno] held. *)
Example cat_short_write :
  exists w', do_cat "notes" (set_sink [WPart 2] w0) = Done (-1) w'
             /\ w_out w' = [(Stdout, "he");
                            (Stderr, "cat: cannot read file. Success"
                                       +:+ newline)]
             /\ w_fds w' = ∅.
Proof. eexists. split; [vm_compute; reflexivity|]. split; reflexivity. Qed.

(** The failure paths of C8, each with the tables empty afterwards. *)
Example cat_read_failure :
  exists w', do_cat "faulty" w0 = Done (-1) w'
             /\ w_out w' = [(Stdout, "ab"); (Stdout, newline);
                            (Stderr, "cat: cannot read file. Input/output error"
                                       +:+ newline)]
             /\ w_fds w' = ∅.
Proof. eexists. split; [vm_compute; reflexivity|]. split; reflexivity. Qed.

Example cat_write_failure :
  exists w', do_cat "notes" w_pipe = Done (-1) w'
             /\ w_out w' = [(Stderr, "cat: cannot read file. Broken pipe"
                                       +:+ newline)]
             /\ w_fds w' = ∅.
Proof. eexists. split; [vm_compute; reflexivity|]. split; reflexivity. Qed.

Example ls_entry_failure :
  exists w', do_ls "." w_pipe = Done (-1) w'
             /\ w_wire w'
                = [(Stderr, "ls: Cannot read entry from directory... Broken pipe"
                              +:+ newline)]
             /\ w_dirs w' = ∅.
Proof. eexists. split; [vm_compute; reflexivity|]. split; reflexivity. Qed.

Example ls_open_failure :
  exists w', do_ls "notes" w0 = Done (-1) w'
             /\ w_out w' = [(Stderr, "ls: Not a directory" +:+ newline)]
             /\ w_dirs w' = ∅.
Proof. eexists. split; [vm_compute; reflexivity|]. split; reflexivity. Qed.

(** One turn of the loop at a terminal: the prompt, and then what [cat]
    sends. *)
Example turn_at_terminal :
  exists w', main_iteration ("cat notes" +:+ newline) w0 = Done "" w'
             /\ w_wire w' = [(Stdout, prompt_text "/home/u");
                              (Stdout, "hello"); (Stdout, newline)]
             /\ out_held (w_stdio w') = "".
Proof. eexists. split; [vm_compute; reflexivity|]. split; reflexivity. Qed.

(** The same turn with the commands piped in: nothing flushes the prompt
    before the [write] of [do_cat], and it arrives after the chunk, when
    the newline is printed. *)
Example turn_with_piped_input :
  exists w', main_iteration ("cat notes" +:+ newline) w_piped = Done "" w'
             /\ w_wire w' = [(Stdout, "hello");
                              (Stdout, prompt_text "/home/u" +:+ newline)]
             /\ out_held (w_stdio w') = "".
Proof. eexists. split; [vm_compute; reflexivity|]. split; reflexivity. Qed.

(** The same turn with input and output redirected: the chunk arrives,
    the prompt and the newline wait in the buffer; [exit] sends them. *)
Example turn_redirected :
  exists w' w'',
    main_iteration ("cat notes" +:+ newline) (set_stdio redirected w0)
    = Done "" w'
    /\ w_wire w' = [(Stdout, "hello")]
    /\ out_held (w_stdio w') = prompt_text "/home/u" +:+ newline
    /\ main_iteration "exit" w' = Exited 0 w''
    /\ w_wire w''
       = [(Stdout, "hello");
          (Stdout, prompt_text "/home/u" +:+ newline
                     +:+ prompt_text "/home/u")].
Proof.
  eexists _, _. split; [vm_compute; reflexivity|].
  split; [reflexivity|]. split; [reflexivity|].
  split; [vm_compute; reflexivity|reflexivity].
Qed.

(** [cd /tmp] and then [pwd]. *)
Example cd_then_pwd :
  exists w1 w2, do_cd "/tmp" w0 = Done 0 w1
                /\ do_pwd w1 = Done 1 w2
                /\ w_out w2 = [(Stdout, "/tmp" +:+ newline)].
Proof.
  eexists _, _. split; [vm_compute; reflexivity|].
  split; [vm_compute; reflexivity|reflexivity].
Qed.

End Runs.


(** ** Properties of a whole session *)

Section Session.

Context {K : Type} `{Posix K}.

Lemma polite_ret {A} (a : A) : polite (K := K) (ret a).
Proof. intros w. simpl. auto. Qed.

Lemma polite_bind {A B} (c : M K A) (k : A -> M K B) :
  polite c -> (forall a, polite (k a)) -> polite (bind c k).
Proof.
  intros Hc Hk w. unfold bind. specialize (Hc w).
  destruct (c w) as [a w1|s w1|w1|]; auto.
  destruct Hc as [Hf Hd]. specialize (Hk a w1).
  destruct (k a w1) as [b w2|s w2|w2|]; auto;
    rewrite <- Hf, <- Hd; auto.
Qed.

Lemma polite_gets {A} (f : world K -> A) : polite (gets f).
Proof. intros w. simpl. auto. Qed.

Lemma polite_modify (f : world K -> world K) :
  (forall w, w_fds (f w) = w_fds w /\ w_dirs (f w) = w_dirs w) ->
  polite (modify f).
Proof. intros Hf w. simpl. apply Hf. Qed.

Lemma polite_enter c : polite (K := K) (enter c).
Proof. apply polite_modify. intros w. auto. Qed.

Lemma polite_exit {A} : polite (K := K) (A := A) (exit EXIT_SUCCESS).
Proof.
  intros w. unfold exit. destruct (flush_handles w) as [Hf Hd]. auto.
Qed.

Lemma polite_crash {A} : polite (K := K) (A := A) crash.
Proof. intros w. simpl. auto. Qed.

Lemma polite_path_call f : polite (K := K) (path_call f).
Proof. intros w. unfold path_call. destruct (f (w_kern w)); simpl; auto. Qed.

Lemma polite_getcwd n : polite (K := K) (getcwd n).
Proof.
  intros w. unfold getcwd. destruct (sys_getcwd n (w_kern w)); simpl; auto.
Qed.

Lemma polite_stat path : polite (K := K) (stat path).
Proof.
  intros w. unfold stat. destruct (sys_stat path (w_kern w)); simpl; auto.
Qed.

Lemma polite_printf text : polite (K := K) (printf text).
Proof.
  intros w. destruct (printf_handles text w) as (n & w' & -> & Hf & Hd).
  auto.
Qed.

Lemma polite_fprintf_stderr text : polite (K := K) (fprintf_stderr text).
Proof. intros w. simpl. auto. Qed.

Lemma polite_sscanf input verb : polite (K := K) (sscanf input verb).
Proof. intros w. unfold sscanf. destruct (scan verb input); simpl; auto. Qed.

Lemma polite_strncpy src n : polite (K := K) (strncpy_filename src n).
Proof.
  intros w. unfold strncpy_filename.
  destruct (Nat.ltb (String.length src) n); simpl; auto.
Qed.

Lemma polite_do_cat file : polite (K := K) (do_cat file).
Proof.
  intros w. destruct (do_cat_handles file w) as (z & w' & -> & Hf & Hd).
  auto.
Qed.

Lemma polite_do_ls dirname : polite (K := K) (do_ls dirname).
Proof.
  intros w. destruct (do_ls_handles dirname w) as (z & w' & -> & Hf & Hd).
  auto.
Qed.

Ltac polite_leaf :=
  first [ apply polite_ret | apply polite_gets | apply polite_enter
        | apply polite_exit | apply polite_crash | apply polite_path_call
        | apply polite_getcwd | apply polite_stat | apply polite_printf
        | apply polite_fprintf_stderr | apply polite_sscanf
        | apply polite_strncpy | apply polite_do_cat | apply polite_do_ls
        | (apply polite_modify; intros ?; split; reflexivity) ].

Ltac polite_walk :=
  repeat match goal with
         | |- polite (bind _ _) => apply polite_bind; [|intros ?]
         | |- polite (if ?b then _ else _) => destruct b
         | |- polite (match ?x with _ => _ end) => destruct x
         | |- polite _ => polite_leaf
         end.

Lemma polite_do_cd dirname : polite (K := K) (do_cd dirname).
Proof.
  unfold do_cd, getpwuid, load_pw_dir, chdir. polite_walk.
Qed.

Lemma polite_do_mkdir dirname : polite (K := K) (do_mkdir dirname).
Proof. unfold do_mkdir, mkdir. polite_walk. Qed.

Lemma polite_do_rmdir dirname : polite (K := K) (do_rmdir dirname).
Proof. unfold do_rmdir, rmdir. polite_walk. Qed.

Lemma polite_do_rm file : polite (K := K) (do_rm file).
Proof. unfold do_rm, unlink. polite_walk. Qed.

Lemma polite_do_pwd : polite (K := K) do_pwd.
Proof. unfold do_pwd. polite_walk. Qed.

Lemma polite_do_stat file : polite (K := K) (do_stat file).
Proof. unfold do_stat. polite_walk. Qed.

Lemma polite_do_q : polite (K := K) do_q.
Proof. unfold do_q. polite_walk. Qed.

Lemma polite_execute_command buffer : polite (K := K) (execute_command buffer).
Proof.
  unfold execute_command.
  repeat match goal with
         | |- polite (do_cat _) => apply polite_do_cat
         | |- polite (do_stat _) => apply polite_do_stat
         | |- polite (do_mkdir _) => apply polite_do_mkdir
         | |- polite (do_rmdir _) => apply polite_do_rmdir
         | |- polite (do_rm _) => apply polite_do_rm
         | |- polite (do_ls _) => apply polite_do_ls
         | |- polite do_pwd => apply polite_do_pwd
         | |- polite do_q => apply polite_do_q
         | |- polite (bind _ _) => apply polite_bind; [|intros ?]
         | |- polite (if ?b then _ else _) => destruct b
         | |- polite _ => polite_leaf
         end.
Qed.

Lemma polite_dispatch buffer : polite (K := K) (dispatch buffer).
Proof.
  unfold dispatch.
  repeat match goal with
         | |- polite (do_cd _) => apply polite_do_cd
         | |- polite (execute_command _) => apply polite_execute_command
         | |- polite (bind _ _) => apply polite_bind; [|intros ?]
         | |- polite (if ?b then _ else _) => destruct b
         | |- polite _ => polite_leaf
         end.
Qed.

Lemma polite_handle_line line : polite (K := K) (handle_line line).
Proof.
  unfold handle_line. apply polite_bind; [apply polite_gets|intros below].
  destruct (strip_trailing_whitespace (load line below));
    [|apply polite_crash].
  repeat (apply polite_bind;
          [apply polite_modify; intros ?; split; reflexivity|intros ?]).
  apply polite_dispatch.
Qed.

Lemma polite_display_prompt : polite (K := K) display_prompt.
Proof. unfold display_prompt, fprintf_prompt. polite_walk. Qed.

Lemma polite_fgets_stdin stdin : polite (K := K) (fgets_stdin stdin).
Proof.
  intros w. unfold fgets_stdin.
  destruct (flush_handles w) as [Hf Hd].
  destruct (in_eof (w_stdio w)); [simpl; auto|].
  destruct (fgets BUFFER_SIZE stdin) as [[line rest]|].
  - destruct (_ && _ && _); simpl; auto.
  - destruct (_ && _); simpl; auto.
Qed.

Lemma polite_main_iteration stdin : polite (K := K) (main_iteration stdin).
Proof.
  unfold main_iteration.
  apply polite_bind; [apply polite_display_prompt|intros _].
  apply polite_bind; [apply polite_fgets_stdin|intros [[buffer rest]|]];
    [|apply polite_ret].
  apply polite_bind; [apply polite_handle_line|intros _; apply polite_ret].
Qed.

(** X16.  Whatever the line and whatever the kernel, the file, the
    directory and standard output do: when the body of the loop of
    [main] comes back to the loop, or ends the process by a memory fault
    or by [exit], the tables of open descriptors and directory streams
    are as they were before the line, and the status of an [exit] is 0.
    (Nothing is said on whether it ends: a file that delivers data
    without end keeps the loop of [do_cat] running.) *)
Theorem command_line_is_polite line (w : world K) :
  match handle_line line w with
  | Done _ w' | Crashed w' => w_fds w' = w_fds w /\ w_dirs w' = w_dirs w
  | Exited status w' =>
      status = 0 /\ w_fds w' = w_fds w /\ w_dirs w' = w_dirs w
  | Timeout => True
  end.
Proof.
  pose proof (polite_handle_line line w) as Hp.
  destruct (handle_line line w); auto.
Qed.

(** X15.  [main] never reaches its [return]: after any number of turns
    of the loop it is still running, or the process has ended by a memory
    fault or by [exit], and then with status 0 and with no descriptor
    left open that was not open at the start. *)
Theorem main_ends_only_by_exit fuel : forall stdin (w : world K),
  match main_loop fuel stdin w with
  | Done _ _ => False
  | Exited status w' =>
      status = 0 /\ w_fds w' = w_fds w /\ w_dirs w' = w_dirs w
  | Crashed w' => w_fds w' = w_fds w /\ w_dirs w' = w_dirs w
  | Timeout => True
  end.
Proof.
  induction fuel as [|fuel IH]; intros stdin w; [exact I|].
  simpl. unfold bind.
  pose proof (polite_main_iteration stdin w) as Hit.
  destruct (main_iteration stdin w) as [rest w1|s w1|w1|]; auto.
  destruct Hit as [Hf Hd]. specialize (IH rest w1).
  destruct (main_loop fuel rest w1) as [z w2|s w2|w2|]; auto;
    rewrite <- Hf, <- Hd; auto.
Qed.

(** X17.  At the end of the input [fgets] returns NULL and the loop goes
    on: however many turns it is given, [main] has not ended. *)
Theorem end_of_input_spins fuel : forall (w : world K),
  main_loop fuel "" w = Timeout.
Proof.
  induction fuel as [|fuel IH]; intros w; [reflexivity|].
  simpl. unfold bind at 1. unfold main_iteration. unfold bind at 1.
  assert (Hd : exists w1, display_prompt w = Done tt w1).
  { unfold display_prompt, fprintf_prompt, bind, getcwd.
    destruct (sys_getcwd MAX_PATH_LENGTH (w_kern w)) as [d|e];
      [|eexists; reflexivity].
    match goal with |- context [printf ?t ?w1] =>
      destruct (printf_handles t w1) as (n & w2 & -> & _) end.
    eexists; reflexivity. }
  destruct Hd as (w1 & ->).
  assert (Hg : exists w2, fgets_stdin "" w1 = Done None w2).
  { unfold fgets_stdin. destruct (in_eof (w_stdio w1)); eexists; reflexivity. }
  cbv beta iota. unfold bind at 1.
  destruct Hg as (w2 & ->). simpl. apply IH.
Qed.

End Session.

(** ** Properties of the reading and the scanning of lines *)

Section Lines.

Lemma read_line_spec n : forall input line rest,
  read_line n input = (line, rest) ->
  line +:+ rest = input
  /\ (String.length line <= n)%nat
  /\ (rest = ""
      \/ (exists body, line = body +:+ newline)
      \/ String.length line = n)
  /\ (forall body tail, line = body +:+ newline +:+ tail -> tail = "").
Proof.
  induction n as [|n IH]; intros input line rest E.
  - simpl in E. injection E as <- <-. simpl.
    repeat split; auto. intros [|c body] tail E; discriminate E.
  - destruct input as [|c input]; simpl in E.
    + injection E as <- <-. simpl. repeat split; auto; try lia.
      intros [|c body] tail E; discriminate E.
    + destruct (Ascii.eqb_spec c (ascii_of_nat 10)) as [->|Hc].
      * injection E as <- <-. simpl. repeat split; auto; try lia.
        { right. left. exists "". reflexivity. }
        { intros [|c body] tail E; simpl in E.
          - now injection E as <-.
          - injection E as _ E. destruct body; discriminate E. }
      * destruct (read_line n input) as [l r] eqn:El.
        injection E as <- <-.
        destruct (IH _ _ _ El) as (Happ & Hlen & Hend & Hnl).
        simpl. rewrite Happ. repeat split; auto; try lia.
        { destruct Hend as [->|[(body & ->)|Hn]]; auto.
          right. left. exists (String c body). reflexivity. }
        { intros [|d body] tail E; simpl in E.
          - injection E as E _. unfold newline in Hc. congruence.
          - injection E as _ E. eauto. }
Qed.

Lemma read_line_nonempty n c input :
  (0 < n)%nat -> fst (read_line n (String c input)) <> "".
Proof.
  destruct n as [|n]; [lia|]. intros _. simpl.
  destruct (Ascii.eqb c (ascii_of_nat 10)); [discriminate|].
  destruct (read_line n input). discriminate.
Qed.

Lemma skip_spaces_split s :
  exists sp, s = sp +:+ skip_spaces s /\ all_space sp = true.
Proof.
  induction s as [|c s (sp & E & Hsp)]; simpl.
  - exists "". auto.
  - destruct (isspace c) eqn:Hc.
    + exists (String c sp). simpl. rewrite Hc, Hsp.
      split; [now f_equal|reflexivity].
    + exists "". auto.
Qed.

Lemma scan_word_split s :
  exists tail, s = scan_word s +:+ tail
               /\ no_space (scan_word s) = true /\ is_tail tail = true.
Proof.
  induction s as [|c s (tail & E & Hw & Ht)]; simpl.
  - exists "". auto.
  - destruct (isspace c) eqn:Hc.
    + exists (String c s). simpl. auto.
    + exists tail. simpl. rewrite Hc, Hw.
      split; [now f_equal|split; [reflexivity|assumption]].
Qed.

Lemma scan_stored_shape verb input word :
  scan verb input = ScanStored word ->
  exists sp tail,
    input = verb +:+ sp +:+ word +:+ tail
    /\ all_space sp = true /\ is_word word = true /\ is_tail tail = true.
Proof.
  unfold scan. intros E.
  destruct (match_literal verb input) as [rest| |] eqn:El; try discriminate.
  apply match_literal_prefix in El.
  destruct (skip_spaces_split rest) as (sp & Hrest & Hsp).
  destruct (scan_word_split (skip_spaces rest)) as (tail & Hs & Hw & Ht).
  destruct (scan_word (skip_spaces rest)) as [|c word'] eqn:Ew;
    [discriminate|].
  injection E as <-. exists sp, tail.
  split; [|split; [assumption|split; [exact Hw|assumption]]].
  rewrite El, Hrest at 1. now rewrite Hs at 1.
Qed.

(** X5.  A pattern ["<verb> %s"] stores a word exactly for the lines made
    of the characters of the verb, a run of white space that may be
    empty, the word, and then nothing or something that starts with
    white space; the word stored is that word. *)
Theorem scan_stores_exactly verb input word :
  scan verb input = ScanStored word
  <-> exists sp tail,
        input = verb +:+ sp +:+ word +:+ tail
        /\ all_space sp = true /\ is_word word = true /\ is_tail tail = true.
Proof.
  split.
  - apply scan_stored_shape.
  - intros (sp & tail & -> & Hsp & Hw & Ht). now apply scan_verb_word.
Qed.

Lemma scan_stored_length verb input word :
  scan verb input = ScanStored word ->
  (String.length verb + String.length word <= String.length input)%nat.
Proof.
  intros E. apply scan_stored_shape in E as (sp & tail & -> & _).
  rewrite !length_append. lia.
Qed.

(** The stripping only ever writes the terminator. *)
Lemma strip_loop_keeps_NUL fuel : forall m i m' n,
  strip_loop fuel m i = Some m' ->
  cells m !! n = Some NUL -> cells m' !! n = Some NUL.
Proof.
  induction fuel as [|fuel IH]; intros m i m' n E Hn; [discriminate|].
  rewrite strip_loop_S in E.
  destruct (peek m i) as [c|]; [|discriminate].
  destruct (isspace c); [|congruence].
  apply (IH _ _ _ n) in E; [assumption|].
  unfold poke. destruct (0 <=? i); simpl; [|assumption].
  destruct (decide (Z.to_nat i = n)) as [->|Hne].
  - apply list_lookup_insert_eq. eapply lookup_lt_Some; eauto.
  - now rewrite list_lookup_insert_ne.
Qed.

Lemma cstring_bound l : forall n,
  l !! n = Some NUL -> (String.length (cstring l) <= n)%nat.
Proof.
  induction l as [|c l IH]; intros n Hn; [discriminate|].
  simpl. destruct n as [|n]; simpl in Hn.
  - injection Hn as ->. simpl. lia.
  - destruct (Ascii.eqb c NUL); simpl; [lia|].
    apply IH in Hn. lia.
Qed.

(** X3.  The word that a pattern of the dispatcher stores from a line
    read by [fgets] into the line buffer and then stripped always fits
    the [filename] buffer, terminator included: the [%s] without a width
    cannot run over it. *)
Theorem stored_word_fits stdin line rest below m verb word :
  fgets BUFFER_SIZE stdin = Some (line, rest) ->
  strip_trailing_whitespace (load line below) = Some m ->
  scan verb (cstring (cells m)) = ScanStored word ->
  (String.length word < MAX_FILENAME_LENGTH)%nat.
Proof.
  intros Hget Hstrip Hscan. unfold fgets in Hget.
  destruct stdin as [|c stdin]; [discriminate|].
  apply (inj Some) in Hget.
  apply read_line_spec in Hget as (_ & Hlen & _).
  apply scan_stored_length in Hscan.
  unfold strip_trailing_whitespace in Hstrip.
  apply (strip_loop_keeps_NUL _ _ _ _ (String.length line)) in Hstrip.
  - apply cstring_bound in Hstrip.
    unfold BUFFER_SIZE, MAX_FILENAME_LENGTH in *. simpl in Hlen. lia.
  - unfold load. simpl cells.
    rewrite list_lookup_middle; [reflexivity|]. now rewrite length_chars.
Qed.

(** X4.  [fgets] with the size of the line buffer takes from the input a
    line that is not empty and shorter than the buffer; the line and what
    is left put together are the input; a newline can only be the last
    character of the line; and a line that ends without a newline has
    filled the buffer or is the end of the input.  So a longer line of
    the user is cut, and what is left of it is read as the next
    command. *)
Theorem fgets_cuts_lines stdin line rest :
  fgets BUFFER_SIZE stdin = Some (line, rest) ->
  line +:+ rest = stdin
  /\ (0 < String.length line < BUFFER_SIZE)%nat
  /\ (rest = ""
      \/ (exists body, line = body +:+ newline)
      \/ S (String.length line) = BUFFER_SIZE)
  /\ (forall body tail, line = body +:+ newline +:+ tail -> tail = "").
Proof.
  unfold fgets. destruct stdin as [|c stdin]; [discriminate|].
  intros E. apply (inj Some) in E.
  pose proof (read_line_nonempty (BUFFER_SIZE - 1) c stdin) as Hne.
  rewrite E in Hne. simpl fst in Hne.
  apply read_line_spec in E as (Happ & Hlen & Hend & Hnl).
  repeat split; auto.
  - destruct line; [exfalso; apply Hne; [unfold BUFFER_SIZE; lia|reflexivity]|].
    simpl. lia.
  - unfold BUFFER_SIZE in *. simpl in Hlen. lia.
  - destruct Hend as [|[|Hn]]; auto. right. right.
    unfold BUFFER_SIZE in *. simpl in Hn. lia.
Qed.

End Lines.

(** ** More on the dispatcher *)

Section Typed.

Context {K : Type} `{Posix K}.

#[local] Arguments strncmp : simpl never.
#[local] Arguments strnlen : simpl never.

Lemma string_snoc s : s <> "" -> exists init c, s = init +:+ String c "".
Proof.
  induction s as [|x s IH]; [congruence|]. intros _.
  destruct s as [|y s].
  - exists "", x. reflexivity.
  - destruct IH as (init & c & E); [discriminate|].
    exists (String x init), c. simpl. now rewrite <- E.
Qed.

Lemma no_space_app s t : no_space (s +:+ t) = no_space s && no_space t.
Proof.
  induction s as [|c s IH]; simpl; auto. now rewrite IH, andb_assoc.
Qed.

Lemma no_nul_name v : no_nul (name v) = true.
Proof. destruct v; reflexivity. Qed.

(** X1.  [strip_trailing_whitespace] on a line that fits the buffer and
    ends with white space after a character that is none: the buffer
    then holds the line up to that character, and no byte under the
    buffer is read or written. *)
Theorem stripping_is_exact body c sp below :
  no_nul body = true -> isspace c = false -> c <> NUL ->
  all_space sp = true ->
  (String.length (body +:+ String c sp) < BUFFER_SIZE)%nat ->
  exists m,
    strip_trailing_whitespace (load (body +:+ String c sp) below) = Some m
    /\ cstring (cells m) = body +:+ String c ""
    /\ under m = below.
Proof. apply strip_command_line. Qed.

(** X2.  A line as typed: for cat, stat, mkdir, rmdir, rm, ls, cd and q,
    the verb, white space or none, a word, and white space to the end of
    the line (the newline) runs the built-in of the verb on the word, and
    [filename] holds the word; for rm, when the line does not start with
    rmdir. *)
Theorem typed_command_runs v sp word trail (w : world K) :
  takes_word v = true ->
  all_space sp = true -> is_word word = true -> no_nul word = true ->
  all_space trail = true ->
  (String.length (name v +:+ sp +:+ word +:+ trail) < BUFFER_SIZE)%nat ->
  (v = Rm -> String.prefix "rmdir" (name v +:+ sp +:+ word) = false) ->
  handle_line (name v +:+ sp +:+ word +:+ trail) w
  = run (builtin v word) (set_filename word w).
Proof.
  intros Hv Hsp Hw Hnul Htrail Hlen Hrm.
  destruct (string_snoc word) as (init & c & ->).
  { intros ->. discriminate Hw. }
  pose proof Hw as Hword.
  unfold is_word in Hw. apply andb_true_iff in Hw as [_ Hns].
  rewrite no_space_app in Hns. apply andb_true_iff in Hns as [_ Hc].
  simpl in Hc. rewrite andb_true_r in Hc. apply negb_true_iff in Hc.
  rewrite no_nul_app in Hnul. apply andb_true_iff in Hnul as [Hinit Hcn].
  simpl in Hcn. rewrite andb_true_r in Hcn. apply negb_true_iff in Hcn.
  apply Ascii.eqb_neq in Hcn.
  assert (Eline : name v +:+ sp +:+ (init +:+ String c "") +:+ trail
                  = (name v +:+ sp +:+ init) +:+ String c trail).
  { now rewrite !append_assoc3. }
  rewrite Eline in *.
  rewrite handle_line_command; auto.
  - replace ((name v +:+ sp +:+ init) +:+ String c "")
      with (name v +:+ sp +:+ (init +:+ String c "") +:+ "")
      by (now rewrite !append_assoc3, append_empty).
    rewrite dispatch_word; auto.
    intros Ev. rewrite append_empty. auto.
  - rewrite !no_nul_app, no_nul_name, (all_space_no_nul _ Hsp), Hinit.
    reflexivity.
Qed.

Ltac differs :=
  apply strncmp_neq;
  [ let E := fresh in intros E; simpl in E; discriminate E
  | simpl; unfold BUFFER_SIZE; lia ].

Ltac skip_patterns :=
  repeat first [ rewrite sscanf_skip by reflexivity
               | rewrite sscanf_skip_or by reflexivity ].

(** X6.  White space in front of a line is not skipped: a line that
    starts with a white space character, whatever follows, runs no
    built-in and is reported as unknown. *)
Theorem leading_white_space_rejected c rest (w : world K) :
  isspace c = true ->
  dispatch (String c rest) w
  = Done tt (add_out (unknown_command (String c rest)) w).
Proof.
  intros Hc.
  assert (Hp : forall a lit, isspace a = false ->
                 String.prefix (String a lit) (String c rest) = false).
  { intros a lit Ha. simpl. destruct (ascii_dec a c) as [->|]; congruence. }
  rewrite dispatch_unknown.
  - reflexivity.
  - unfold starts_with_any. cbn [existsb]. rewrite !Hp; reflexivity.
  - now apply Hp.
  - intros E. injection E as -> _. discriminate Hc.
  - intros E. injection E as -> _. discriminate Hc.
Qed.

(** X7.  [execute_command] on [ls] alone lists "." only when [filename]
    is empty at that point; otherwise it lists what [filename] holds from
    before.  ([main] clears [filename] before every command.) *)
Theorem ls_alone_lists_filename (w : world K) :
  execute_command "ls" w
  = if String.eqb (w_filename w) "" then do_ls "." (set_filename "." w)
    else do_ls (w_filename w) w.
Proof.
  unfold execute_command. skip_patterns.
  rewrite sscanf_alone_or, strncmp_refl. change (0 =? 0) with true.
  cbv iota. unfold bind at 1. unfold gets at 1.
  unfold bind at 1. rewrite strnlen_0.
  destruct (String.eqb (w_filename w) ""); reflexivity.
Qed.

(** X18.  Every stripped line that starts with the letter q ends the
    process with status 0, through [do_q] and with nothing written: q
    alone, q and an argument, and any longer word such as quit. *)
Theorem q_prefix_exits rest (w : world K) :
  rest = "" \/ all_space rest = false ->
  exists w', dispatch ("q" +:+ rest) w = Exited 0 w'
             /\ w_calls w' = (w_calls w ++ [CallQ])%list
             /\ w_out w' = w_out w.
Proof.
  intros Hrest. unfold dispatch, execute_command.
  rewrite sscanf_skip_or by reflexivity.
  replace (strncmp _ "cd" _ =? 0) with false by (symmetry; differs).
  replace (strncmp _ "exit" _ =? 0) with false by (symmetry; differs).
  unfold bind at 1. skip_patterns.
  replace (strncmp _ "ls" _ =? 0) with false by (symmetry; differs).
  replace (strncmp _ "pwd" _ =? 0) with false by (symmetry; differs).
  destruct Hrest as [->|Hrest].
  - rewrite (sscanf_alone_or "q"), strncmp_refl. change (0 =? 0) with true.
    eexists. split; [reflexivity|].
    match goal with |- context [flush_stdout ?w1] =>
      destruct (flush_frame w1) as (Hc & Ho & _) end.
    split; [exact Hc|exact Ho].
  - assert (Hs : exists word, scan "q" ("q" +:+ rest) = ScanStored word).
    { unfold scan. rewrite (match_literal_app "q").
      assert (Hk : skip_spaces rest <> "").
      { clear - Hrest. induction rest as [|c r IH]; [discriminate|].
        simpl in *. destruct (isspace c) eqn:Hc; [|discriminate].
        auto. }
      assert (Hw : scan_word (skip_spaces rest) <> "").
      { clear - Hk. induction rest as [|c r IH]; [now destruct Hk|].
        simpl in *. destruct (isspace c) eqn:Hc; [auto|].
        simpl. rewrite Hc. discriminate. }
      destruct (scan_word (skip_spaces rest)); [now destruct Hw|eauto]. }
    destruct Hs as (word & Hs).
    rewrite (sscanf_take_or _ _ _ _ _ _ _ Hs).
    eexists. split; [reflexivity|].
    match goal with |- context [flush_stdout ?w1] =>
      destruct (flush_frame w1) as (Hc & Ho & _) end.
    split; [exact Hc|exact Ho].
Qed.

End Typed.

(** ** More on the built-ins *)

Section Reports.

Context {K : Type} `{Posix K}.

Ltac wsimpl :=
  cbn [w_kern w_errno w_filename w_under w_beyond w_fds w_dirs w_sink
       w_junk w_out w_calls w_stdio w_wire set_kern set_errno set_filename
       set_under set_fds set_dirs set_sink set_stdio set_held add_out
       log_out add_wire add_call] in *.

#[local] Arguments first_bytes : simpl never.
#[local] Arguments rest_bytes : simpl never.

Lemma strerror_one_line e : count_newlines (strerror e) = 0%nat.
Proof. destruct e as [[]|]; reflexivity. Qed.

(** X8.  [do_mkdir] (with mode 0777), [do_rmdir] and [do_rm] are one
    call each: when the kernel accepts it they return 0, having written
    nothing; when it refuses they return -1, the kernel is as it was, and
    standard error has received one line, made of the name of the
    command, a fixed text, and the reason the kernel gave. *)
Theorem one_call_builtins_report path (w : world K) :
  match sys_mkdir path 511 (w_kern w) with
  | Ok k' =>
      do_mkdir path w = Done 0 (set_kern k' (add_call (CallMkdir path) w))
  | Fail e =>
      do_mkdir path w
      = Done (-1)
          (add_out (Stderr, "mkdir: Cannot create directory. "
                              +:+ strerror (Some e) +:+ "." +:+ newline)
             (set_errno (Some e) (add_call (CallMkdir path) w)))
      /\ count_newlines ("mkdir: Cannot create directory. "
                           +:+ strerror (Some e) +:+ "." +:+ newline) = 1%nat
  end
  /\ match sys_rmdir path (w_kern w) with
     | Ok k' =>
         do_rmdir path w = Done 0 (set_kern k' (add_call (CallRmdir path) w))
     | Fail e =>
         do_rmdir path w
         = Done (-1)
             (add_out (Stderr, "rmdir: Cannot remove directory. "
                                 +:+ strerror (Some e) +:+ "." +:+ newline)
                (set_errno (Some e) (add_call (CallRmdir path) w)))
         /\ count_newlines ("rmdir: Cannot remove directory. "
                              +:+ strerror (Some e) +:+ "." +:+ newline) = 1%nat
     end
  /\ match sys_unlink path (w_kern w) with
     | Ok k' =>
         do_rm path w = Done 0 (set_kern k' (add_call (CallRm path) w))
     | Fail e =>
         do_rm path w
         = Done (-1)
             (add_out (Stderr, "rm: Cannot remove file. "
                                 +:+ strerror (Some e) +:+ "." +:+ newline)
                (set_errno (Some e) (add_call (CallRm path) w)))
         /\ count_newlines ("rm: Cannot remove file. "
                              +:+ strerror (Some e) +:+ "." +:+ newline) = 1%nat
     end.
Proof.
  pose proof (do_mkdir_contract path w) as Hm.
  pose proof (do_rmdir_contract path w) as Hr.
  pose proof (do_rm_contract path w) as Hu.
  destruct (sys_mkdir path 511 (w_kern w)) as [k1|e1],
           (sys_rmdir path (w_kern w)) as [k2|e2],
           (sys_unlink path (w_kern w)) as [k3|e3];
    repeat split; try assumption;
    rewrite !count_newlines_app, strerror_one_line; reflexivity.
Qed.

Lemma prints_ret {A} (P : A -> Prop) a :
  P a -> prints (K := K) [] P (ret a).
Proof.
  intros Ha w. exists a, w. simpl. rewrite app_nil_r. auto.
Qed.

Lemma prints_bind {A B} l1 l2 (P : B -> Prop) (c : M K A)
    (k : A -> M K B) :
  prints l1 (fun _ => True) c -> (forall a, prints l2 P (k a)) ->
  prints (l1 ++ l2) P (bind c k).
Proof.
  intros Hc Hk w. unfold bind.
  destruct (Hc w) as (a & w1 & -> & _ & Ho1 & Hk1).
  destruct (Hk a w1) as (b & w2 & -> & Hb & Ho2 & Hk2).
  exists b, w2. split; [reflexivity|]. split; [assumption|].
  rewrite Ho2, Ho1, Hk2, Hk1, map_app, app_assoc. auto.
Qed.

Lemma prints_printf text : prints (K := K) [text] (fun _ => True) (printf text).
Proof.
  intros w. unfold printf, transmit.
  destruct (Nat.eqb _ 0).
  - eexists _, _. split; [reflexivity|]. auto.
  - destruct (drain _ _) as [[pieces [e|]] s];
      (eexists _, _; split; [reflexivity|]; auto).
Qed.

Lemma signed_small bits z :
  0 < bits -> 0 <= z < 2 ^ (bits - 1) -> signed bits z = z.
Proof.
  intros Hb Hz. unfold signed.
  assert (E : 2 ^ bits = 2 * 2 ^ (bits - 1)).
  { rewrite <- Z.pow_succ_r by lia. f_equal. lia. }
  rewrite Z.mod_small by lia. lia.
Qed.

Lemma signed_large bits z :
  0 < bits -> 2 ^ (bits - 1) <= z < 2 ^ bits ->
  signed bits z = z - 2 ^ bits.
Proof.
  intros Hb Hz. unfold signed.
  assert (E : 2 ^ bits = 2 * 2 ^ (bits - 1)).
  { rewrite <- Z.pow_succ_r by lia. f_equal. lia. }
  replace (z + 2 ^ (bits - 1))
    with ((z - 2 ^ (bits - 1)) + 1 * 2 ^ bits) by lia.
  rewrite Z.mod_add by lia. rewrite Z.mod_small by lia. lia.
Qed.

Example print_d_wraps : print_d 3000000000 = "-1294967296".
Proof. reflexivity. Qed.

(** X9.  [do_stat] on a file the kernel reports on returns 0 and gives
    to standard output the eleven texts of [stat_lines], in which every
    number is printed as the signed value of the bits [%d] or [%ld]
    takes: an owner, a group or a mode from 2^31 up comes out negative,
    less by 2^32.  On a file the kernel refuses it returns -1, with one
    line on standard error that gives the reason, and nothing on standard
    output.  The kernel is never changed. *)
Theorem stat_report file (w : world K) :
  match sys_stat file (w_kern w) with
  | Ok stats =>
      (exists w',
         do_stat file w = Done 0 w'
         /\ w_out w'
            = (w_out w ++ map (pair Stdout) (stat_lines file stats))%list
         /\ w_kern w' = w_kern w)
      /\ (forall id, 0 <= id < 2 ^ 31 -> print_d id = decimal id)
      /\ (forall id, 2 ^ 31 <= id < 2 ^ 32 ->
            print_d id = decimal (id - 2 ^ 32))
  | Fail e =>
      do_stat file w
      = Done (-1)
          (add_out (Stderr, "stat: Cannot retrieve file stats. "
                              +:+ strerror (Some e) +:+ "." +:+ newline)
             (set_errno (Some e) (add_call (CallStat file) w)))
      /\ count_newlines ("stat: Cannot retrieve file stats. "
                           +:+ strerror (Some e) +:+ "." +:+ newline) = 1%nat
  end.
Proof.
  destruct (sys_stat file (w_kern w)) as [stats|e] eqn:E.
  - unfold do_stat, enter, modify, stat.
    unfold bind at 1. unfold bind at 1. wsimpl. rewrite E.
    match goal with |- context [?c (add_call ?x w)] =>
      assert (Hq : prints (stat_lines file stats) (fun z => z = 0) c) end.
    { unfold stat_lines.
      repeat (apply (prints_bind [_]); [apply prints_printf|intros _]).
      now apply prints_ret. }
    destruct (Hq (add_call (CallStat file) w))
      as (z & w' & Hrun & -> & Hout & Hkern).
    refine (conj _ (conj _ _)).
    + exists w'. auto.
    + intros id Hid. unfold print_d. now rewrite signed_small by lia.
    + intros id Hid. unfold print_d. now rewrite signed_large by lia.
  - split; [now apply do_stat_fails|].
    rewrite !count_newlines_app, strerror_one_line. reflexivity.
Qed.

(** The loop of [do_ls] on a stream that delivers the entries [names] and
    then ends or fails. *)
Lemma ls_loop_entries fuel : forall names tail dir (w : world K),
  w_dirs w !! dir = Some (map DEntry names ++ tail)%list ->
  match tail with
  | [] | DFail _ :: _ => True
  | DEntry _ :: _ => False
  end ->
  w_errno w = None -> w_sink w = [] ->
  (length names < fuel)%nat ->
  exists w',
    ls_loop fuel dir w = Done 0 w'
    /\ w_out w'
       = (w_out w ++ map (fun n => (Stdout, n +:+ newline)) names)%list
    /\ w_errno w' = match tail with
                    | DFail e :: _ => Some e
                    | _ => None
                    end.
Proof.
  induction fuel as [|fuel IH];
    intros names tail dir w Hdir Htail Herrno Hsink Hfuel; [lia|].
  simpl ls_loop. unfold bind at 1. unfold readdir. rewrite Hdir.
  destruct names as [|n names]; simpl map; simpl app.
  - destruct tail as [|[x|e] rest]; [|contradiction|].
    + unfold bind, closedir, ret. rewrite Hdir.
      eexists. split; [reflexivity|]. wsimpl. now rewrite app_nil_r.
    + unfold bind, closedir, ret. wsimpl. rewrite lookup_insert_eq.
      eexists. split; [reflexivity|]. wsimpl. now rewrite app_nil_r.
  - unfold bind at 1. unfold gets. wsimpl. rewrite Herrno.
    unfold bind at 1.
    match goal with |- context [printf ?t ?w1] =>
      destruct (printf_plain t w1)
        as (w2 & -> & Hout2 & Hsink2 & Herr2 & _ & _ & Hdirs2 & _) end;
      [assumption|].
    destruct (IH names tail dir w2) as (w' & -> & Hout & Herr); auto.
    { rewrite Hdirs2. wsimpl. now rewrite lookup_insert_eq. }
    { now rewrite Herr2. }
    { simpl in Hfuel. lia. }
    eexists. split; [reflexivity|]. rewrite Hout, Hout2. wsimpl.
    split; [now rewrite <- app_assoc|assumption].
Qed.

Lemma do_ls_entries dirname names tail (w : world K) :
  sys_opendir dirname (w_kern w) = Ok (map DEntry names ++ tail)%list ->
  match tail with
  | [] | DFail _ :: _ => True
  | DEntry _ :: _ => False
  end ->
  w_sink w = [] ->
  exists w',
    do_ls dirname w = Done 0 w'
    /\ w_out w'
       = (w_out w ++ map (fun n => (Stdout, n +:+ newline)) names)%list
    /\ w_errno w' = match tail with
                    | DFail e :: _ => Some e
                    | _ => None
                    end.
Proof.
  intros Hopen Htail Hsink. unfold do_ls, enter, modify.
  unfold bind at 1. unfold bind at 1. unfold opendir. wsimpl. rewrite Hopen.
  unfold bind at 1. unfold bind at 1. unfold gets at 1.
  match goal with |- context [ls_loop ?n ?d ?w1] =>
    destruct (ls_loop_entries n names tail d w1) as (w' & -> & Hout & Herr)
  end; auto.
  - wsimpl. now rewrite lookup_insert_eq.
  - unfold ls_budget. wsimpl. rewrite lookup_insert_eq. simpl.
    rewrite length_app, length_map. lia.
  - eauto.
Qed.

(** X10.  [do_ls] on a directory that opens and is read to its end
    prints every entry the directory delivers, in the order delivered,
    each followed by a newline (it leaves none out, "." and ".."
    included), writes nothing else, and returns 0. *)
Theorem ls_lists_entries dirname names (w : world K) :
  sys_opendir dirname (w_kern w) = Ok (map DEntry names) ->
  w_sink w = [] ->
  exists w',
    do_ls dirname w = Done 0 w'
    /\ w_out w'
       = (w_out w ++ map (fun n => (Stdout, n +:+ newline)) names)%list.
Proof.
  intros Hopen Hsink.
  destruct (do_ls_entries dirname names [] w) as (w' & E & Hout & _); auto.
  - now rewrite app_nil_r.
  - eauto.
Qed.

(** X11.  When a [readdir] fails, [do_ls] stops as at the end of the
    directory: it has printed the entries read before, it prints no
    message, it returns 0, and it leaves the error number of the failure
    in [errno]; what the directory held after that point is not read. *)
Theorem ls_hides_readdir_failure dirname names e rest (w : world K) :
  sys_opendir dirname (w_kern w)
  = Ok (map DEntry names ++ DFail e :: rest)%list ->
  w_sink w = [] ->
  exists w',
    do_ls dirname w = Done 0 w'
    /\ w_out w'
       = (w_out w ++ map (fun n => (Stdout, n +:+ newline)) names)%list
    /\ w_errno w' = Some e.
Proof.
  intros Hopen Hsink.
  now apply (do_ls_entries dirname names (DFail e :: rest) w).
Qed.

(** X12.  Standard output a terminal with its buffer empty: when a
    [read] fails, the chunks read before it have arrived at descriptor 1,
    each followed by its newline; then the one line "cat: cannot read
    file." with the reason of the failed read arrives at descriptor 2,
    and [do_cat] returns -1; what the file held after that point is not
    read. *)
Theorem cat_read_failure_reported file pieces e rest (w : world K) :
  sys_open file (w_kern w) = Ok (map RData pieces ++ RFail e :: rest)%list ->
  Forall (fun p => p <> "") pieces ->
  w_sink w = [] ->
  out_tty (w_stdio w) = true -> out_held (w_stdio w) = "" ->
  exists w',
    do_cat file w = Done (-1) w'
    /\ w_wire w'
       = (w_wire w ++ cat_output (flat_map (chunks BUFFER_SIZE) pieces)
          ++ [(Stderr, "cat: cannot read file. " +:+ strerror (Some e)
                         +:+ newline)])%list
    /\ out_held (w_stdio w') = "".
Proof.
  intros Hopen Hall Hsink Htty Hheld.
  destruct (do_cat_pieces file pieces (RFail e :: rest) w)
    as (w' & E & Hwire & _ & Hh); auto.
  eauto.
Qed.

(** X14.  Standard output a terminal with its buffer empty: a
    zero-length read ends [do_cat] with 0 wherever it comes; an empty
    file sends nothing at all, not even a newline, and after a
    zero-length read nothing more of the file is read or sent. *)
Theorem cat_stops_at_zero_length_read file pieces rest (w : world K) :
  sys_open file (w_kern w) = Ok (map RData pieces ++ RData "" :: rest)%list ->
  Forall (fun p => p <> "") pieces ->
  w_sink w = [] ->
  out_tty (w_stdio w) = true -> out_held (w_stdio w) = "" ->
  exists w',
    do_cat file w = Done 0 w'
    /\ w_wire w'
       = (w_wire w ++ cat_output (flat_map (chunks BUFFER_SIZE) pieces))%list
    /\ out_held (w_stdio w') = "".
Proof.
  intros Hopen Hall Hsink Htty Hheld.
  destruct (do_cat_pieces file pieces (RData "" :: rest) w)
    as (w' & E & Hwire & _ & Hh); auto.
  exists w'. split; [assumption|]. split; [|assumption].
  rewrite Hwire. cbn [read_report]. now rewrite app_nil_r.
Qed.

(** X13.  When the [write] of a chunk fails, [do_cat] writes the line
    "cat: cannot read file." with the reason of the failed write and
    returns -1.  When the [write] takes only a part of the chunk, that
    part is on standard output, -1 is returned, and the reason in the
    line is the text for whatever [errno] held when [do_cat] was
    entered: no call has set it. *)
Theorem cat_write_failures file p rest e n s (w : world K) :
  sys_open file (w_kern w) = Ok (RData p :: rest) ->
  (0 < String.length p <= BUFFER_SIZE)%nat ->
  (n < String.length p)%nat ->
  (w_sink w = WFail e :: s ->
   exists w',
     do_cat file w = Done (-1) w'
     /\ w_out w'
        = (w_out w ++ [(Stderr, "cat: cannot read file. "
                                  +:+ strerror (Some e) +:+ newline)])%list)
  /\ (w_sink w = WPart n :: s ->
      exists w',
        do_cat file w = Done (-1) w'
        /\ w_out w'
           = (w_out w ++ [(Stdout, first_bytes n p);
                          (Stderr, "cat: cannot read file. "
                                     +:+ strerror (w_errno w) +:+ newline)])%list).
Proof.
  intros Hopen Hlen Hn.
  destruct (fresh_key_spec (w_fds w)) as [_ Hge].
  split; intros Hsink; unfold do_cat, enter, modify;
    unfold bind at 1; unfold bind at 1; unfold open; wsimpl; rewrite Hopen;
    (destruct (Z.eqb_spec (fresh_key (w_fds w)) (-1)) as [Hm|_]; [lia|]);
    unfold bind at 1; unfold gets at 1; unfold cat_budget;
    (erewrite open_file_insert; [|lia|reflexivity]);
    cbn [default]; cbn [cat_loop]; unfold bind at 1; unfold read;
    (erewrite open_file_insert; [|lia|reflexivity]);
    cbn [read_step];
    (destruct (Nat.leb_spec (String.length p) BUFFER_SIZE) as [_|]; [|lia]);
    (destruct (Z.eqb_spec (Z.of_nat (String.length p)) 0); [lia|]);
    (destruct (Z.eqb_spec (Z.of_nat (String.length p)) (-1)); [lia|]);
    unfold bind at 1; unfold bind at 1; unfold write1; wsimpl;
    rewrite Hsink.
  - unfold ret at 1.
    destruct (Z.eqb_spec (-1) (Z.of_nat (String.length p))); [lia|].
    change (negb false) with true. cbv beta iota.
    unfold bind, close, gets, fprintf_stderr, ret, open_file.
    destruct (Z.ltb_spec (fresh_key (w_fds w)) 0); [lia|].
    wsimpl. rewrite lookup_insert_eq.
    eexists. split; [reflexivity|]. reflexivity.
  - unfold ret at 1. rewrite Nat.min_l by lia.
    destruct (Z.eqb_spec (Z.of_nat n) (Z.of_nat (String.length p))); [lia|].
    change (negb false) with true. cbv beta iota.
    unfold bind, close, gets, fprintf_stderr, ret, open_file.
    destruct (Z.ltb_spec (fresh_key (w_fds w)) 0); [lia|].
    wsimpl. rewrite lookup_insert_eq.
    eexists. split; [reflexivity|]. wsimpl. now rewrite <- app_assoc.
Qed.



(** X21.  A line that is empty or made of white space only sends
    nothing: when the body of the loop is done with it, or has ended in
    a memory fault under the buffer, what has arrived at the two
    descriptors and the buffers of stdio are as they were. *)
Theorem blank_line_sends_nothing line (w : world K) :
  all_space line = true ->
  match handle_line line w with
  | Done _ w' | Crashed w' =>
      w_wire w' = w_wire w /\ w_stdio w' = w_stdio w
  | _ => False
  end.
Proof.
  intros Hsp. unfold handle_line, bind, gets.
  pose proof (strip_blank_line line (w_under w) Hsp) as Hstrip.
  destruct (strip_trailing_whitespace (load line (w_under w))) as [m|].
  - rewrite Hstrip. unfold modify. rewrite dispatch_empty.
    split; reflexivity.
  - simpl. split; reflexivity.
Qed.





End Reports.

(** ** The properties above on the toy kernel *)

Module Sessions.

Import Toy.

Lemma stripping_is_exact_witness :
  exists m,
    strip_trailing_whitespace
      (load ("pw" +:+ String "d" (" " +:+ newline)) [NUL]) = Some m
    /\ cstring (cells m) = "pw" +:+ String "d" ""
    /\ under m = [NUL].
Proof.
  apply (stripping_is_exact "pw" "d" (" " +:+ newline) [NUL]);
    [ reflexivity
    | reflexivity
    | discriminate
    | reflexivity
    | simpl; unfold BUFFER_SIZE; lia ].
Defined.

Lemma typed_command_runs_witness :
  handle_line (name Rm +:+ " " +:+ "notes" +:+ newline) w0
  = run (builtin Rm "notes") (set_filename "notes" w0).
Proof.
  apply (typed_command_runs Rm " " "notes" newline w0);
    [ reflexivity
    | reflexivity
    | reflexivity
    | reflexivity
    | reflexivity
    | simpl; unfold BUFFER_SIZE; lia
    | intros _; reflexivity ].
Defined.

Lemma stored_word_fits_witness :
  (String.length "notes" < MAX_FILENAME_LENGTH)%nat.
Proof.
  eapply (stored_word_fits ("cat notes" +:+ newline +:+ "ls" +:+ newline)
            ("cat notes" +:+ newline) ("ls" +:+ newline) [NUL] _
            "cat" "notes");
    [ reflexivity
    | vm_compute; reflexivity
    | vm_compute; reflexivity ].
Defined.

Lemma fgets_cuts_lines_witness :
  ("pwd" +:+ newline) +:+ ("ls" +:+ newline)
  = "pwd" +:+ newline +:+ "ls" +:+ newline
  /\ (0 < String.length ("pwd" +:+ newline) < BUFFER_SIZE)%nat
  /\ ("ls" +:+ newline = ""
      \/ (exists body, "pwd" +:+ newline = body +:+ newline)
      \/ S (String.length ("pwd" +:+ newline)) = BUFFER_SIZE)
  /\ (forall body tail,
        "pwd" +:+ newline = body +:+ newline +:+ tail -> tail = "").
Proof.
  apply (fgets_cuts_lines ("pwd" +:+ newline +:+ "ls" +:+ newline)
           ("pwd" +:+ newline) ("ls" +:+ newline)).
  reflexivity.
Defined.

Lemma leading_white_space_rejected_witness :
  dispatch (String " " "ls") w0
  = Done tt (add_out (unknown_command (String " " "ls")) w0).
Proof. apply (leading_white_space_rejected " " "ls" w0). reflexivity. Defined.

Lemma q_prefix_exits_witness :
  exists w', dispatch ("q" +:+ "uit") w0 = Exited 0 w'
             /\ w_calls w' = (w_calls w0 ++ [CallQ])%list
             /\ w_out w' = w_out w0.
Proof. apply (q_prefix_exits "uit" w0). right. reflexivity. Defined.

Lemma ls_lists_entries_witness :
  exists w',
    do_ls "src" w0 = Done 0 w'
    /\ w_out w'
       = (w_out w0 ++ map (fun n => (Stdout, n +:+ newline))
                        ["."; ".."; "myshell.c"])%list.
Proof.
  apply (ls_lists_entries "src" ["."; ".."; "myshell.c"] w0); reflexivity.
Defined.

Lemma ls_hides_readdir_failure_witness :
  exists w',
    do_ls "faulty" w0 = Done 0 w'
    /\ w_out w'
       = (w_out w0 ++ map (fun n => (Stdout, n +:+ newline)) ["."])%list
    /\ w_errno w' = Some EIO.
Proof.
  apply (ls_hides_readdir_failure "faulty" ["."] EIO [DEntry ".."] w0);
    reflexivity.
Defined.

Lemma cat_read_failure_reported_witness :
  exists w',
    do_cat "faulty" w0 = Done (-1) w'
    /\ w_wire w'
       = (w_wire w0 ++ cat_output (flat_map (chunks BUFFER_SIZE) ["ab"])
          ++ [(Stderr, "cat: cannot read file. " +:+ strerror (Some EIO)
                         +:+ newline)])%list
    /\ out_held (w_stdio w') = "".
Proof.
  apply (cat_read_failure_reported "faulty" ["ab"] EIO [] w0);
    [ reflexivity
    | repeat constructor; discriminate
    | reflexivity
    | reflexivity
    | reflexivity ].
Defined.

Lemma cat_write_failures_witness :
  (exists w',
     do_cat "notes" w_pipe = Done (-1) w'
     /\ w_out w'
        = (w_out w_pipe
           ++ [(Stderr, "cat: cannot read file. "
                          +:+ strerror (Some EPIPE) +:+ newline)])%list)
  /\ (exists w',
        do_cat "notes" (set_sink [WPart 2] w0) = Done (-1) w'
        /\ w_out w'
           = (w_out (set_sink [WPart 2] w0)
              ++ [(Stdout, first_bytes 2 "hello");
                  (Stderr, "cat: cannot read file. "
                             +:+ strerror (w_errno (set_sink [WPart 2] w0))
                             +:+ newline)])%list).
Proof.
  split.
  - apply (cat_write_failures "notes" "hello" [] EPIPE 2 [] w_pipe);
      [ reflexivity
      | simpl; unfold BUFFER_SIZE; lia
      | simpl; lia
      | reflexivity ].
  - apply (cat_write_failures "notes" "hello" [] EPIPE 2 []
             (set_sink [WPart 2] w0));
      [ reflexivity
      | simpl; unfold BUFFER_SIZE; lia
      | simpl; lia
      | reflexivity ].
Defined.

Lemma cat_stops_at_zero_length_read_witness :
  exists w',
    do_cat "empty" (set_kern (Kernel "/" None [("empty", File "")]) w0)
    = Done 0 w'
    /\ w_wire w'
       = (w_wire (set_kern (Kernel "/" None [("empty", File "")]) w0)
          ++ cat_output (flat_map (chunks BUFFER_SIZE) []))%list
    /\ out_held (w_stdio w') = "".
Proof.
  apply (cat_stops_at_zero_length_read "empty" [] []
           (set_kern (Kernel "/" None [("empty", File "")]) w0));
    [ reflexivity
    | constructor
    | reflexivity
    | reflexivity
    | reflexivity ].
Defined.

Lemma cat_redirected_holds_newlines_witness :
  exists w',
    do_cat "long" w_file = Done 0 w'
    /\ w_wire w'
       = (w_wire w_file
          ++ map (pair Stdout) (flat_map (chunks BUFFER_SIZE) [deep 150])
          ++ read_report [])%list
    /\ out_held (w_stdio w')
       = out_held (w_stdio w_file)
         +:+ newlines (length (flat_map (chunks BUFFER_SIZE) [deep 150])).
Proof.
  apply (cat_redirected_holds_newlines "long" [deep 150] [] w_file);
    [ reflexivity
    | repeat constructor; discriminate
    | exact I
    | reflexivity
    | reflexivity
    | vm_compute; lia ].
Defined.



Lemma blank_line_sends_nothing_witness :
  match handle_line ("  " +:+ newline) w0 with
  | Done _ w' | Crashed w' =>
      w_wire w' = w_wire w0 /\ w_stdio w' = w_stdio w0
  | _ => False
  end.
Proof. apply (blank_line_sends_nothing ("  " +:+ newline) w0 eq_refl). Defined.


End Sessions.
